(** * Verification of the two exercises of the repository

    - [Task1] embeds [findUnique] of [task1.c]: the XOR scan of an
      [int32_t] array.
    - [Task2] embeds the register protocol of [task2.c]: the two FreeRTOS
      tasks [updInputDataParseTask] and [commandsProcessTask] and the
      sender [udpSendBlocked].

    Integers of the C source are values of [Z]; the only arithmetic the
    source performs on them is XOR, equality tests and the increment of
    small loop counters, none of which leaves the range of its type. *)

From Stdlib Require Import ZArith List Bool Lia PeanoNat Permutation.
Import ListNotations.
Local Open Scope Z_scope.

(* ================================================================== *)
(** * task1.c *)
(* ================================================================== *)

Module Task1.

(** [int32_t]: a two's complement value in [-2^31, 2^31).  [Z.lxor] on such
    values is the C operator [^]. *)
Abbreviation int32_t := Z (only parsing).
Definition INT32_MIN : Z := -2147483648.
Definition INT32_MAX : Z := 2147483647.
Definition in_int32 (x : Z) : Prop := INT32_MIN <= x <= INT32_MAX.

(** The loop [for (i = 0; i < n; i++) result ^= a[i];] started at index [i]
    with accumulator [result].  The array is the list [a]; a read outside
    of it has no defined behaviour in C and yields [None].  [fuel] bounds
    the number of iterations. *)
Fixpoint findUnique_loop (fuel : nat) (a : list int32_t) (n i result : int32_t)
  : option int32_t :=
  if i <? n then
    match fuel with
    | O => None
    | S fuel' =>
        match nth_error a (Z.to_nat i) with
        | Some ai => findUnique_loop fuel' a n (i + 1) (Z.lxor result ai)
        | None => None
        end
    end
  else Some result.

(** [int32_t findUnique(int32_t *a, int32_t n)] *)
Definition findUnique (a : list int32_t) (n : int32_t) : option int32_t :=
  findUnique_loop (Z.to_nat n) a n 0 0.

(** The array of [main]. *)
Definition main_array : list int32_t := [2; 4; 6; 8; 10; 6; 4; 2; 8].

(** [main]: [n = sizeof(array) / sizeof(array[0])], [res = findUnique(array, n)]. *)
Definition main : option int32_t :=
  findUnique main_array (Z.of_nat (length main_array)).

(** The XOR of all elements of a list, [a0 ^ a1 ^ ... ^ 0]. *)
Definition xor_all (l : list Z) : Z := fold_right Z.lxor 0 l.

(** Number of occurrences of a value in an array. *)
Definition occurrences (x : Z) (l : list Z) : nat := count_occ Z.eq_dec l x.

(* ------------------------------------------------------------------ *)
(** ** The loop computes the XOR of the elements it scans *)

Lemma fold_left_lxor (l : list Z) (acc : Z) :
  fold_left Z.lxor l acc = Z.lxor acc (xor_all l).
Proof.
  revert acc; induction l as [|x l IH]; intros acc; simpl.
  - now rewrite Z.lxor_0_r.
  - rewrite IH. now rewrite Z.lxor_assoc.
Qed.

Lemma xor_all_app (l1 l2 : list Z) :
  xor_all (l1 ++ l2) = Z.lxor (xor_all l1) (xor_all l2).
Proof.
  induction l1 as [|x l1 IH]; simpl.
  - reflexivity.
  - rewrite IH. now rewrite Z.lxor_assoc.
Qed.

Lemma skipn_nth_error (l : list Z) (k : nat) (x : Z) :
  nth_error l k = Some x -> skipn k l = x :: skipn (S k) l.
Proof.
  revert k; induction l as [|y l IH]; intros [|k] H; simpl in H; try discriminate.
  - now injection H as ->.
  - apply IH in H. exact H.
Qed.

Lemma findUnique_loop_skipn (fuel : nat) (a : list Z) (n i result : Z) :
  0 <= i <= n ->
  n = Z.of_nat (length a) ->
  (Z.to_nat (n - i) <= fuel)%nat ->
  findUnique_loop fuel a n i result
  = Some (Z.lxor result (xor_all (skipn (Z.to_nat i) a))).
Proof.
  revert i result.
  induction fuel as [|fuel IH]; intros i result Hi Hn Hfuel.
  - assert (i = n) by lia. subst i n.
    cbn [findUnique_loop]. rewrite Z.ltb_irrefl.
    rewrite Nat2Z.id, skipn_all. simpl.
    now rewrite Z.lxor_0_r.
  - cbn [findUnique_loop].
    destruct (Z.ltb_spec i n) as [Hlt|Hge].
    + destruct (nth_error a (Z.to_nat i)) as [ai|] eqn:Hnth.
      * rewrite IH by lia.
        replace (Z.to_nat (i + 1)) with (S (Z.to_nat i)) by lia.
        rewrite (skipn_nth_error _ _ _ Hnth). cbn [xor_all fold_right].
        now rewrite Z.lxor_assoc.
      * apply nth_error_None in Hnth. lia.
    + assert (i = n) by lia. subst i n.
      rewrite Nat2Z.id, skipn_all. simpl.
      now rewrite Z.lxor_0_r.
Qed.

Lemma findUnique_xor_all (a : list Z) :
  findUnique a (Z.of_nat (length a)) = Some (xor_all a).
Proof.
  unfold findUnique.
  rewrite findUnique_loop_skipn by lia.
  reflexivity.
Qed.

(* ------------------------------------------------------------------ *)
(** ** Pairs cancel *)

Lemma occurrences_app (x : Z) (l1 l2 : list Z) :
  occurrences x (l1 ++ l2) = (occurrences x l1 + occurrences x l2)%nat.
Proof. apply count_occ_app. Qed.

Lemma occurrences_cons_eq (x : Z) (l : list Z) :
  occurrences x (x :: l) = S (occurrences x l).
Proof. now apply count_occ_cons_eq. Qed.

Lemma occurrences_cons_neq (x y : Z) (l : list Z) :
  y <> x -> occurrences x (y :: l) = occurrences x l.
Proof. intros H. now apply count_occ_cons_neq. Qed.

Lemma occurrences_pos_In (x : Z) (l : list Z) :
  (0 < occurrences x l)%nat -> In x l.
Proof. intros H. now apply (count_occ_In Z.eq_dec). Qed.

(** [h ^ a ^ h ^ b = a ^ b]: the two occurrences of [h] cancel. *)
Lemma lxor_cancel_pair (h a b : Z) :
  Z.lxor h (Z.lxor a (Z.lxor h b)) = Z.lxor a b.
Proof.
  apply Z.bits_inj'. intros k _. rewrite !Z.lxor_spec.
  now destruct (Z.testbit h k), (Z.testbit a k), (Z.testbit b k).
Qed.

(** When every value other than [x] occurs an even number of times, the
    XOR of the list is [x] or [0] according to the parity of [x]. *)
Lemma xor_all_parity (x : Z) (len : nat) :
  forall l : list Z,
    (length l <= len)%nat ->
    (forall y, y <> x -> Nat.Even (occurrences y l)) ->
    xor_all l = if Nat.odd (occurrences x l) then x else 0.
Proof.
  induction len as [|len IH]; intros l Hlen Heven.
  - destruct l; [reflexivity | simpl in Hlen; lia].
  - destruct l as [|h t]; [reflexivity|].
    destruct (Z.eq_dec h x) as [->|Hne].
    + rewrite occurrences_cons_eq, Nat.odd_succ, <- Nat.negb_odd.
      cbn [xor_all fold_right]. fold (xor_all t).
      rewrite (IH t).
      * destruct (Nat.odd (occurrences x t)); cbn [negb].
        -- apply Z.lxor_nilpotent.
        -- apply Z.lxor_0_r.
      * simpl in Hlen; lia.
      * intros y Hy. specialize (Heven y Hy).
        now rewrite occurrences_cons_neq in Heven by congruence.
    + assert (Hin : In h t).
      { apply occurrences_pos_In.
        destruct (Heven h Hne) as [m Hm].
        rewrite occurrences_cons_eq in Hm. lia. }
      apply in_split in Hin as (l1 & l2 & ->).
      rewrite occurrences_cons_neq by exact Hne.
      cbn [xor_all fold_right]. fold (xor_all (l1 ++ h :: l2)).
      rewrite xor_all_app. cbn [xor_all fold_right]. fold (xor_all l2).
      replace (Z.lxor h (Z.lxor (xor_all l1) (Z.lxor h (xor_all l2))))
        with (xor_all (l1 ++ l2)).
      * rewrite occurrences_app, occurrences_cons_neq by exact Hne.
        rewrite <- occurrences_app.
        apply IH.
        -- simpl in Hlen. rewrite length_app in *. simpl in Hlen. lia.
        -- intros y Hy. specialize (Heven y Hy).
           destruct (Z.eq_dec h y) as [->|Hhy].
           ++ rewrite occurrences_cons_eq, occurrences_app,
                occurrences_cons_eq in Heven.
              rewrite occurrences_app.
              destruct Heven as [m Hm]. exists (m - 1)%nat. lia.
           ++ rewrite occurrences_cons_neq, occurrences_app,
                occurrences_cons_neq in Heven by exact Hhy.
              now rewrite occurrences_app.
      * rewrite xor_all_app. symmetry. apply lxor_cancel_pair.
Qed.

(* ------------------------------------------------------------------ *)
(** ** [^] stays within [int32_t] *)

Lemma lxor_below_pow2 (a b n : Z) :
  0 <= a < 2 ^ n -> 0 <= b < 2 ^ n -> 0 <= Z.lxor a b < 2 ^ n.
Proof.
  intros Ha Hb.
  assert (Hnn : 0 <= Z.lxor a b) by (apply Z.lxor_nonneg; lia).
  split; [exact Hnn|].
  destruct (Z.eq_dec (Z.lxor a b) 0) as [->|Hne]; [lia|].
  assert (Hn : 0 < n).
  { destruct (Z.lt_trichotomy n 0) as [Hlt|[->|Hgt]]; [ | | exact Hgt].
    - rewrite Z.pow_neg_r in Ha by exact Hlt. lia.
    - assert (a = 0) by (cbn in Ha; lia). assert (b = 0) by (cbn in Hb; lia).
      subst. now cbn in Hne. }
  apply Z.log2_lt_pow2; [lia|].
  eapply Z.le_lt_trans; [apply Z.log2_lxor; lia|].
  apply Z.max_lub_lt.
  - destruct (Z.eq_dec a 0) as [->|]; [exact Hn|]. apply Z.log2_lt_pow2; lia.
  - destruct (Z.eq_dec b 0) as [->|]; [exact Hn|]. apply Z.log2_lt_pow2; lia.
Qed.

Lemma lxor_in_int32 (x y : Z) :
  in_int32 x -> in_int32 y -> in_int32 (Z.lxor x y).
Proof.
  unfold in_int32, INT32_MIN, INT32_MAX. intros Hx Hy.
  assert (Hpos : forall a b, 0 <= a < 2 ^ 31 -> 0 <= b < 2 ^ 31 ->
                             0 <= Z.lxor a b < 2 ^ 31)
    by (intros; now apply lxor_below_pow2).
  change (2 ^ 31) with 2147483648 in Hpos.
  destruct (Z.neg_nonneg_cases x) as [Hxn|Hxp];
    destruct (Z.neg_nonneg_cases y) as [Hyn|Hyp].
  - rewrite <- Z.lxor_lnot_lnot.
    pose proof (Hpos (Z.lnot x) (Z.lnot y)) as H.
    unfold Z.lnot in *. lia.
  - pose proof (Hpos (Z.lnot x) y) as H.
    rewrite <- (Z.lnot_involutive (Z.lxor x y)), Z.lnot_lxor_l.
    unfold Z.lnot in *. lia.
  - pose proof (Hpos x (Z.lnot y)) as H.
    rewrite <- (Z.lnot_involutive (Z.lxor x y)), Z.lnot_lxor_r.
    unfold Z.lnot in *. lia.
  - pose proof (Hpos x y). lia.
Qed.

(** The scan of an array of [int32_t] values yields an [int32_t] value:
    no step of the loop leaves the range of the type. *)
Lemma findUnique_loop_in_int32 (a : list Z) (n : Z) :
  Forall in_int32 a ->
  forall (fuel : nat) (i result r : Z),
    in_int32 result ->
    findUnique_loop fuel a n i result = Some r ->
    in_int32 r.
Proof.
  intros Ha. induction fuel as [|fuel IH]; intros i result r Hres Hrun.
  - cbn [findUnique_loop] in Hrun.
    destruct (i <? n); [discriminate | now injection Hrun as <-].
  - cbn [findUnique_loop] in Hrun.
    destruct (i <? n); [| now injection Hrun as <-].
    destruct (nth_error a (Z.to_nat i)) as [ai|] eqn:Hnth; [|discriminate].
    apply (IH (i + 1) (Z.lxor result ai) r); [|exact Hrun].
    apply lxor_in_int32; [exact Hres|].
    rewrite Forall_forall in Ha. apply Ha.
    now apply nth_error_In with (n := Z.to_nat i).
Qed.

Lemma findUnique_in_int32 (a : list Z) (n r : Z) :
  Forall in_int32 a -> findUnique a n = Some r -> in_int32 r.
Proof.
  intros Ha Hrun.
  apply (findUnique_loop_in_int32 a n Ha (Z.to_nat n) 0 0 r); [|exact Hrun].
  unfold in_int32, INT32_MIN, INT32_MAX. lia.
Qed.

(** C10: for an array [a] of length [n], [findUnique a n] returns the XOR
    of [a[0..n-1]]; it returns [0] when [n = 0]; and when one value [x]
    occurs an odd number of times while every other value occurs an even
    number of times, it returns [x]. *)
Theorem findUnique_correct (a : list int32_t) (n : int32_t) :
  n = Z.of_nat (length a) ->
  findUnique a n = Some (fold_left Z.lxor a 0)
  /\ (n = 0 -> findUnique a n = Some 0)
  /\ (forall x : int32_t,
         Nat.Odd (occurrences x a) ->
         (forall y, y <> x -> Nat.Even (occurrences y a)) ->
         findUnique a n = Some x).
Proof.
  intros ->.
  rewrite findUnique_xor_all, fold_left_lxor, Z.lxor_0_l.
  split; [reflexivity|split].
  - intros H0. destruct a; [reflexivity | simpl in H0; lia].
  - intros x Hodd Heven.
    rewrite (xor_all_parity x (length a) a (Nat.le_refl _) Heven).
    apply Nat.odd_spec in Hodd. now rewrite Hodd.
Qed.

Lemma main_array_even_others (y : Z) :
  y <> 10 -> Nat.Even (occurrences y main_array).
Proof.
  intros Hy. unfold occurrences, main_array. cbn [count_occ].
  repeat match goal with
         | |- context [Z.eq_dec ?c ?d] =>
             destruct (Z.eq_dec c d) as [?|?]; try discriminate; subst;
             try contradiction
         end;
    first [ now exists 0%nat | now exists 1%nat ].
Qed.

Lemma main_array_odd_10 : Nat.Odd (occurrences 10 main_array).
Proof. now exists 0%nat. Qed.

(** [main] of the source: the scan of [{2, 4, 6, 8, 10, 6, 4, 2, 8}]
    finds [10]. *)
Lemma findUnique_correct_main :
  9 = Z.of_nat (length main_array) /\ main = Some 10.
Proof.
  split; [reflexivity|].
  apply (proj2 (proj2 (findUnique_correct main_array 9 eq_refl))
           10 main_array_odd_10 main_array_even_others).
Defined.

(* ------------------------------------------------------------------ *)
(** ** Further properties of findUnique *)

Lemma findUnique_loop_firstn (fuel : nat) (a : list Z) (n i result : Z) :
  0 <= i <= n ->
  n <= Z.of_nat (length a) ->
  (Z.to_nat (n - i) <= fuel)%nat ->
  findUnique_loop fuel a n i result
  = Some (Z.lxor result
            (xor_all (firstn (Z.to_nat (n - i)) (skipn (Z.to_nat i) a)))).
Proof.
  revert i result.
  induction fuel as [|fuel IH]; intros i result Hi Hn Hfuel.
  - assert (i = n) by lia. subst i.
    cbn [findUnique_loop]. rewrite Z.ltb_irrefl, Z.sub_diag.
    cbn. now rewrite Z.lxor_0_r.
  - cbn [findUnique_loop].
    destruct (Z.ltb_spec i n) as [Hlt|Hge].
    + destruct (nth_error a (Z.to_nat i)) as [ai|] eqn:Hnth.
      * rewrite IH by lia.
        replace (Z.to_nat (i + 1)) with (S (Z.to_nat i)) by lia.
        rewrite (skipn_nth_error _ _ _ Hnth).
        replace (Z.to_nat (n - i)) with (S (Z.to_nat (n - (i + 1)))) by lia.
        cbn [firstn xor_all fold_right].
        now rewrite Z.lxor_assoc.
      * apply nth_error_None in Hnth. lia.
    + assert (i = n) by lia. subst i.
      rewrite Z.sub_diag. cbn. now rewrite Z.lxor_0_r.
Qed.

(** X1: [findUnique a n] reads the first [n] elements only: when the array
    has at least [n] elements the result is the XOR of [a[0..n-1]],
    whatever follows them, and it is [0] when [n] is zero or negative. *)
Theorem findUnique_prefix (a : list int32_t) (n : int32_t) :
  n <= Z.of_nat (length a) ->
  findUnique a n = Some (xor_all (firstn (Z.to_nat n) a))
  /\ (n <= 0 -> findUnique a n = Some 0)
  /\ (forall b : list int32_t,
        firstn (Z.to_nat n) b = firstn (Z.to_nat n) a ->
        n <= Z.of_nat (length b) ->
        findUnique b n = findUnique a n).
Proof.
  intros Hn.
  assert (Hpre : forall l : list Z, n <= Z.of_nat (length l) ->
            findUnique l n = Some (xor_all (firstn (Z.to_nat n) l))).
  { intros l Hl. unfold findUnique.
    destruct (Z.neg_nonneg_cases n) as [Hneg|Hnn].
    - replace (Z.to_nat n) with O by lia. cbn [findUnique_loop].
      destruct (Z.ltb_spec 0 n); [lia | reflexivity].
    - rewrite findUnique_loop_firstn by lia.
      rewrite Z.sub_0_r. cbn [Z.to_nat skipn]. now rewrite Z.lxor_0_l. }
  split; [now apply Hpre|split].
  - intros H0. rewrite Hpre by exact Hn.
    now replace (Z.to_nat n) with O by lia.
  - intros b Hsame Hb. now rewrite (Hpre a Hn), (Hpre b Hb), Hsame.
Qed.

Lemma xor_all_Permutation (a b : list Z) :
  Permutation a b -> xor_all a = xor_all b.
Proof.
  unfold xor_all.
  induction 1 as [|x l l' _ IH|x y l|l l' l'' _ IH1 _ IH2]; cbn.
  - reflexivity.
  - now rewrite IH.
  - rewrite <- !Z.lxor_assoc. now rewrite (Z.lxor_comm y x).
  - now rewrite IH1.
Qed.

(** X2: the result does not depend on the order of the elements. *)
Theorem findUnique_Permutation (a b : list int32_t) :
  Permutation a b ->
  findUnique a (Z.of_nat (length a)) = findUnique b (Z.of_nat (length b)).
Proof.
  intros Hperm. rewrite !findUnique_xor_all.
  now rewrite (xor_all_Permutation a b Hperm).
Qed.

(** X3: the scan of two arrays laid end to end is the XOR of their two
    scans. *)
Theorem findUnique_app (a b : list int32_t) :
  findUnique (a ++ b) (Z.of_nat (length (a ++ b)))
  = match findUnique a (Z.of_nat (length a)),
          findUnique b (Z.of_nat (length b)) with
    | Some x, Some y => Some (Z.lxor x y)
    | _, _ => None
    end.
Proof.
  rewrite !findUnique_xor_all. now rewrite xor_all_app.
Qed.

(** X4: when no value stands alone, every value occurring an even number
    of times, the result is [0]. *)
Theorem findUnique_all_even (a : list int32_t) :
  (forall y, Nat.Even (occurrences y a)) ->
  findUnique a (Z.of_nat (length a)) = Some 0.
Proof.
  intros Heven. rewrite findUnique_xor_all.
  rewrite (xor_all_parity 0 (length a) a (Nat.le_refl _)) by (intros; apply Heven).
  now destruct (Nat.odd (occurrences 0 a)).
Qed.

(** X5: on an array of [int32_t] values the scan returns a value, and that
    value is an [int32_t]. *)
Theorem findUnique_total_in_int32 (a : list int32_t) :
  Forall in_int32 a ->
  exists r, findUnique a (Z.of_nat (length a)) = Some r /\ in_int32 r.
Proof.
  intros Ha. exists (xor_all a). split; [apply findUnique_xor_all|].
  apply (findUnique_in_int32 a (Z.of_nat (length a))); [exact Ha|].
  apply findUnique_xor_all.
Qed.

(** X6: when two different values [x] and [y] occur an odd number of times
    and every other value an even number of times, the result is [x ^ y],
    which is neither [x] nor [y] unless the other one is [0]. *)
Theorem findUnique_two_odd (a : list int32_t) (x y : int32_t) :
  x <> y ->
  Nat.Odd (occurrences x a) ->
  Nat.Odd (occurrences y a) ->
  (forall z, z <> x -> z <> y -> Nat.Even (occurrences z a)) ->
  findUnique a (Z.of_nat (length a)) = Some (Z.lxor x y)
  /\ (y <> 0 -> Z.lxor x y <> x)
  /\ (x <> 0 -> Z.lxor x y <> y).
Proof.
  intros Hxy Hx Hy Hrest.
  split; [|split].
  - rewrite findUnique_xor_all.
    assert (Hcons : xor_all (y :: a) = x).
    { rewrite (xor_all_parity x (length (y :: a)) (y :: a) (Nat.le_refl _)).
      - rewrite occurrences_cons_neq by congruence.
        apply Nat.odd_spec in Hx. now rewrite Hx.
      - intros z Hz. destruct (Z.eq_dec y z) as [<-|Hyz].
        + rewrite occurrences_cons_eq. destruct Hy as [k Hk].
          exists (S k). lia.
        + rewrite occurrences_cons_neq by exact Hyz.
          apply Hrest; congruence. }
    cbn [xor_all fold_right] in Hcons. fold (xor_all a) in Hcons.
    f_equal. rewrite <- Hcons.
    apply Z.bits_inj'. intros k _. rewrite !Z.lxor_spec.
    now destruct (Z.testbit y k), (Z.testbit (xor_all a) k).
  - intros Hy0 Heq. apply Hy0.
    apply Z.bits_inj'. intros k _. rewrite Z.bits_0.
    apply (f_equal (fun v => Z.testbit v k)) in Heq.
    rewrite Z.lxor_spec in Heq.
    now destruct (Z.testbit x k), (Z.testbit y k).
  - intros Hx0 Heq. apply Hx0.
    apply Z.bits_inj'. intros k _. rewrite Z.bits_0.
    apply (f_equal (fun v => Z.testbit v k)) in Heq.
    rewrite Z.lxor_spec in Heq.
    now destruct (Z.testbit x k), (Z.testbit y k).
Qed.

Lemma findUnique_prefix_main :
  3 <= Z.of_nat (length main_array) /\ findUnique main_array 3 = Some 0.
Proof.
  assert (H : 3 <= Z.of_nat (length main_array)) by (cbn; lia).
  split; [exact H|].
  exact (proj1 (findUnique_prefix main_array 3 H)).
Defined.

Lemma findUnique_Permutation_swap :
  Permutation [5; 9; 5] [9; 5; 5]
  /\ findUnique [5; 9; 5] 3 = findUnique [9; 5; 5] 3.
Proof.
  assert (H : Permutation [5; 9; 5] [9; 5; 5]) by apply perm_swap.
  split; [exact H|].
  apply (findUnique_Permutation [5; 9; 5] [9; 5; 5] H).
Defined.

Lemma pair_all_even (y : Z) : Nat.Even (occurrences y [3; 3]).
Proof.
  unfold occurrences. cbn [count_occ].
  destruct (Z.eq_dec 3 y); [now exists 1%nat | now exists 0%nat].
Qed.

Lemma findUnique_all_even_pair : findUnique [3; 3] 2 = Some 0.
Proof. apply (findUnique_all_even [3; 3] pair_all_even). Defined.

Lemma main_array_in_int32 : Forall in_int32 main_array.
Proof.
  unfold main_array, in_int32, INT32_MIN, INT32_MAX.
  repeat constructor; lia.
Qed.

Lemma findUnique_total_in_int32_main :
  exists r, main = Some r /\ in_int32 r.
Proof. apply (findUnique_total_in_int32 main_array main_array_in_int32). Defined.

Lemma two_odd_others_even (z : Z) :
  z <> 5 -> z <> 9 -> Nat.Even (occurrences z [5; 9; 7; 7]).
Proof.
  intros H5 H9. unfold occurrences. cbn [count_occ].
  repeat match goal with
         | |- context [Z.eq_dec ?c ?d] =>
             destruct (Z.eq_dec c d) as [?|?]; try discriminate; subst;
             try contradiction
         end;
    first [ now exists 0%nat | now exists 1%nat ].
Qed.

Lemma findUnique_two_odd_example :
  5 <> 9 /\ findUnique [5; 9; 7; 7] 4 = Some 12.
Proof.
  split; [discriminate|].
  apply (findUnique_two_odd [5; 9; 7; 7] 5 9).
  - discriminate.
  - now exists 0%nat.
  - now exists 0%nat.
  - exact two_odd_others_even.
Defined.

End Task1.

(* ================================================================== *)
(** * task2.c *)
(* ================================================================== *)

Module Task2.

(** ** Constants of the source *)

Definition PACKET_MAX_SIZE : Z := 14.

Definition PACKET_TYPE_COMMAND : Z := 1.
Definition PACKET_TYPE_RESPONSE : Z := 2.
Definition PACKET_TYPE_REQ_ACK : Z := 3.
Definition PACKET_TYPE_REPLY_ACK : Z := 4.

Definition COMMAND_TYPE_READ_REGISTER : Z := 0.
Definition COMMAND_TYPE_WRITE_REGISTER : Z := 1.

Definition RESPONSE_FAULT : Z := 0.
Definition RESPONSE_OK : Z := 1.

Definition SEND_RESPONSE_ATTEMPTS : Z := 3.

(** FreeRTOS: the longest block time, and the results of queue calls. *)
Definition portMAX_DELAY : Z := 4294967295.
Definition pdPASS : Z := 1.
Definition errQUEUE_FULL : Z := 0.

Definition TIMEOUT_SEND_COMMAND_MS : Z := 1000.
Definition TIMEOUT_SEND_REPLY_ACK_MS : Z := 1000.
Definition TIMEOUT_RECEIVE_COMMAND_MS : Z := portMAX_DELAY.
Definition TIMEOUT_RECEIVE_REPLY_ACK_MS : Z := 100.

(** ** The three structures *)

Record commandData_t := mk_commandData {
  cmd_packet_id : Z;      (* uint32_t packet_id *)
  cmd_command_type : Z;   (* uint8_t  command_type *)
  cmd_reg_address : Z;    (* uint32_t reg_address *)
  cmd_reg_value : Z       (* uint32_t reg_value *)
}.

Record responseData_t := mk_responseData {
  rsp_packet_id : Z;        (* uint32_t packet_id *)
  rsp_response_status : Z;  (* uint8_t  response_status *)
  rsp_reg_address : Z;      (* uint32_t reg_address *)
  rsp_reg_value : Z         (* uint32_t reg_value *)
}.

Record ackData_t := mk_ackData {
  ack_packet_id : Z         (* uint32_t packet_id *)
}.

(** [sizeof] of the two structures handed to [udpSendBlocked], with the
    natural alignment of a 32-bit target. *)
Definition sizeof_ackData_t : Z := 4.
Definition sizeof_responseData_t : Z := 16.

(** What the [uint8_t *] argument of [udpSendBlocked] points to. *)
Inductive udp_data :=
| DataAck (a : ackData_t)
| DataResponse (r : responseData_t).

(* ------------------------------------------------------------------ *)
(** ** Queues *)

(** Modelled from the spec: the FreeRTOS queue behind [QueueHandle_t] is
    not part of the source.  A channel is bounded and ordered: FIFO
    delivery, a blocking enqueue with a timeout, a blocking dequeue with a
    timeout, and a reset that clears all pending entries. *)
Record Queue (A : Type) := mkQueue {
  uxQueueLength : nat;     (* capacity, fixed at creation *)
  q_items : list A         (* pending entries, oldest first *)
}.
Arguments mkQueue {A}.
Arguments uxQueueLength {A}.
Arguments q_items {A}.

(** Modelled from the spec: [xQueueCreate] makes an empty channel of the
    given capacity. *)
Definition xQueueCreate {A : Type} (length : nat) : Queue A :=
  mkQueue length [].

(** Modelled from the spec: [xQueueReset] clears all pending entries at
    once. *)
Definition xQueueReset {A : Type} (q : Queue A) : Queue A :=
  mkQueue (uxQueueLength q) [].

(** What the other side of a queue does while a task waits on it.  Ticks
    count from the start of the call. *)
Inductive arrival (A : Type) :=
| ArrivesAt (tick : Z) (item : A)   (* the producer enqueues [item] at [tick] *)
| NoArrival.                        (* nothing is enqueued *)
Arguments ArrivesAt {A}.
Arguments NoArrival {A}.

Inductive vacancy :=
| FreedAt (tick : Z)     (* the consumer dequeues the oldest entry at [tick] *)
| NeverFreed.

(** Modelled from the spec: [xQueueReceive] returns the oldest pending
    entry at once; on an empty queue it waits for up to [xTicksToWait]
    ticks and returns what arrives in that time, [None] (not [pdPASS])
    when the wait runs out. *)
Definition xQueueReceive {A : Type} (q : Queue A) (xTicksToWait : Z)
    (env : arrival A) : option A * Queue A :=
  match q_items q with
  | x :: rest => (Some x, mkQueue (uxQueueLength q) rest)
  | [] =>
      match env with
      | ArrivesAt tick x =>
          if tick <? xTicksToWait then (Some x, q) else (None, q)
      | NoArrival => (None, q)
      end
  end.

(** Modelled from the spec: [xQueueSend] appends at once when there is
    room; on a full queue it waits for up to [xTicksToWait] ticks for the
    consumer to take the oldest entry, and returns [errQUEUE_FULL] with
    the queue unchanged when the wait runs out. *)
Definition xQueueSend {A : Type} (q : Queue A) (item : A) (xTicksToWait : Z)
    (env : vacancy) : Z * Queue A :=
  if (length (q_items q) <? uxQueueLength q)%nat then
    (pdPASS, mkQueue (uxQueueLength q) (q_items q ++ [item]))
  else
    match env with
    | FreedAt tick =>
        if tick <? xTicksToWait
        then (pdPASS, mkQueue (uxQueueLength q) (tl (q_items q) ++ [item]))
        else (errQUEUE_FULL, q)
    | NeverFreed => (errQUEUE_FULL, q)
    end.

(* ------------------------------------------------------------------ *)
(** ** Packet Codec *)

Inductive byte_order := BigEndian | LittleEndian.

Fixpoint le_bytes (n : nat) (v : Z) : list Z :=
  match n with
  | O => []
  | S n' => (v mod 256) :: le_bytes n' (v / 256)
  end.

Definition u32_bytes (bo : byte_order) (v : Z) : list Z :=
  match bo with
  | LittleEndian => le_bytes 4 v
  | BigEndian => rev (le_bytes 4 v)
  end.

Inductive frame :=
| Command (c : commandData_t)
| Response (r : responseData_t)
| RequestAck (a : ackData_t)
| ReplyAck (a : ackData_t).

Inductive frame_kind := KCommand | KResponse | KRequestAck | KReplyAck.

Definition kind_of (f : frame) : frame_kind :=
  match f with
  | Command _ => KCommand
  | Response _ => KResponse
  | RequestAck _ => KRequestAck
  | ReplyAck _ => KReplyAck
  end.

Definition kind_code (k : frame_kind) : Z :=
  match k with
  | KCommand => PACKET_TYPE_COMMAND
  | KResponse => PACKET_TYPE_RESPONSE
  | KRequestAck => PACKET_TYPE_REQ_ACK
  | KReplyAck => PACKET_TYPE_REPLY_ACK
  end.

(** Modelled from the spec: [makePacket], the encoder called by
    [udpSendBlocked], is not part of the source.  The layout is the one of
    the spec's wire format and of the table that opens [task2.c]: byte 0
    the frame kind, bytes 1-4 the sequence id, and for Command and
    Response frames byte 5 the operation or status, bytes 6-9 the address
    and bytes 10-13 the value.  The byte order of the 4-byte fields is
    left open by the spec and is a parameter here. *)
Definition encode (bo : byte_order) (f : frame) : list Z :=
  match f with
  | Command c =>
      [kind_code KCommand] ++ u32_bytes bo (cmd_packet_id c)
      ++ [cmd_command_type c mod 256]
      ++ u32_bytes bo (cmd_reg_address c) ++ u32_bytes bo (cmd_reg_value c)
  | Response r =>
      [kind_code KResponse] ++ u32_bytes bo (rsp_packet_id r)
      ++ [rsp_response_status r mod 256]
      ++ u32_bytes bo (rsp_reg_address r) ++ u32_bytes bo (rsp_reg_value r)
  | RequestAck a => [kind_code KRequestAck] ++ u32_bytes bo (ack_packet_id a)
  | ReplyAck a => [kind_code KReplyAck] ++ u32_bytes bo (ack_packet_id a)
  end.

(** Length of the wire format per frame kind (spec, data model). *)
Definition frame_length (k : frame_kind) : nat :=
  match k with
  | KCommand | KResponse => 14
  | KRequestAck | KReplyAck => 5
  end.

(* ------------------------------------------------------------------ *)
(** ** Effects *)

(** What the tasks do to the world outside of their memory.  The ring
    buffers have no implementation in the source, so a [put] is recorded as
    an event.

    [QueueSendFailSignal] and [NoReplyAckSignal] are marks, not effects:
    the source leaves its failure signals as comments in otherwise empty
    branches, so the program does nothing there, and the two events only
    record that the branch is taken.  Where a statement below says that
    a failure is signalled, it says that the branch is taken;
    [performed] gives the events without the marks. *)
Inductive event :=
| CommandStored (c : commandData_t)
    (* commandDataRingBuf.put *)
| ResponseStored (r : responseData_t)
    (* responseDataRingBuf.put *)
| Sent (packet_type : Z) (data : udp_data)
       (packet : list Z) (packet_size : Z) (sendto_result : Z)
    (* FreeRTOS_sendto inside udpSendBlocked: the arguments of the call of
       udpSendBlocked, the packet handed to the transport and the result
       of the transport *)
| QueueSendFailSignal
    (* mark of the branches of lines 112-116 and 121-125, which hold the
       comment "Make some signal for fail to adding message to queue"
       and [continue] *)
| NoReplyAckSignal.
    (* mark of the branch of lines 187-191, which holds the comments
       "There is no REPLY_ACK from master." and "Make some signal." *)

(** The frames of a given kind among the events: the calls of
    [udpSendBlocked] with that [packet_type]. *)
Definition is_sent (packet_type : Z) (ev : event) : bool :=
  match ev with
  | Sent t _ _ _ _ => t =? packet_type
  | _ => false
  end.

Definition count_sent (packet_type : Z) (tr : list event) : nat :=
  length (filter (is_sent packet_type) tr).

(** The marks of the branches in which the source has comments only. *)
Definition is_branch_mark (ev : event) : bool :=
  match ev with
  | QueueSendFailSignal | NoReplyAckSignal => true
  | _ => false
  end.

(** What the program does: the events without the marks. *)
Definition performed (tr : list event) : list event :=
  filter (fun ev => negb (is_branch_mark ev)) tr.

(* ------------------------------------------------------------------ *)
(** ** The protocol engine *)

Section Engine.

(** The parts of the program that [task2.c] calls and does not define. *)

(** Tick rate of the scheduler, as used by [pdMS_TO_TICKS]. *)
Variable configTICK_RATE_HZ : Z.

(** The register backend.  [reg_read regs address old] is the call
    [reg_read(address, &value)] with [old] the content of [value] before
    the call: it yields the status, the content of [value] after the call
    and the registers after the call.  [reg_write regs address value]
    yields the status and the registers after the call. *)
Variable Regs : Type.
Variable reg_read : Regs -> Z -> Z -> Z * Z * Regs.
Variable reg_write : Regs -> Z -> Z -> Z * Regs.

(** [makePacket(data, size, packet, &packet_size)]: the packet and its
    size. *)
Variable makePacket : udp_data -> Z -> list Z * Z.

(** [getPacketFromUdp()]: the packet when the datagram holds a valid one;
    [packetToCommandData()] and [packetToReplyAck()]: the structure held
    by the packet. *)
Variable getPacketFromUdp : list Z -> option (list Z).
Variable packetToCommandData : list Z -> commandData_t.
Variable packetToReplyAck : list Z -> ackData_t.

(** Modelled from the spec: [pdMS_TO_TICKS] is a macro of FreeRTOS, not
    part of the source; it turns the milliseconds of a bounded wait into
    scheduler ticks. *)
Definition pdMS_TO_TICKS (xTimeInMs : Z) : Z :=
  xTimeInMs * configTICK_RATE_HZ / 1000.

(** The memory of the program: the two global queues, the mutex of the
    sender, the registers, and the local [responseData] of
    [commandsProcessTask], which lives across the iterations of its
    [while(1)]. *)
Record Memory := mkMemory {
  commandDataQueue : Queue commandData_t;
  replyAckQueue : Queue ackData_t;
  udpSendMutex : bool;            (* [true] while taken *)
  registers : Regs;
  responseData : responseData_t
}.

Definition set_commandDataQueue (q : Queue commandData_t) (m : Memory) :=
  mkMemory q (replyAckQueue m) (udpSendMutex m) (registers m) (responseData m).
Definition set_replyAckQueue (q : Queue ackData_t) (m : Memory) :=
  mkMemory (commandDataQueue m) q (udpSendMutex m) (registers m) (responseData m).
Definition set_udpSendMutex (b : bool) (m : Memory) :=
  mkMemory (commandDataQueue m) (replyAckQueue m) b (registers m) (responseData m).
Definition set_registers (r : Regs) (m : Memory) :=
  mkMemory (commandDataQueue m) (replyAckQueue m) (udpSendMutex m) r (responseData m).
Definition set_responseData (r : responseData_t) (m : Memory) :=
  mkMemory (commandDataQueue m) (replyAckQueue m) (udpSendMutex m) (registers m) r.

(** A step of a task: a result, the memory after it, and the events it
    caused, oldest first. *)
Definition M (A : Type) : Type := Memory -> A * Memory * list event.

Definition ret {A : Type} (x : A) : M A := fun m => (x, m, []).

Definition bind {A B : Type} (c : M A) (k : A -> M B) : M B :=
  fun m =>
    let '(x, m1, t1) := c m in
    let '(y, m2, t2) := k x m1 in
    (y, m2, t1 ++ t2).

Definition emit (e : event) : M unit := fun m => (tt, m, [e]).
Definition get {A : Type} (f : Memory -> A) : M A := fun m => (f m, m, []).
Definition modify (f : Memory -> Memory) : M unit := fun m => (tt, f m, []).

Notation "x <- c1 ;; c2" := (bind c1 (fun x => c2))
  (at level 61, c1 at next level, right associativity).
Notation "c1 ;; c2" := (bind c1 (fun _ => c2))
  (at level 61, right associativity).

Definition result_of {A : Type} (r : A * Memory * list event) : A := fst (fst r).
Definition memory_of {A : Type} (r : A * Memory * list event) : Memory := snd (fst r).
Definition trace_of {A : Type} (r : A * Memory * list event) : list event := snd r.

(* ------------------------------------------------------------------ *)
(** *** udpSendBlocked *)

(** Modelled from the spec: the mutex primitives are not part of the
    source.  [xMutexAcquire(udpSendMutex, portMAX_DELAY)] returns once the
    caller has exclusive access to the transport; [xMutexRelease] gives it
    up. *)
Definition xMutexAcquire : M unit := modify (set_udpSendMutex true).

Definition xMutexRelease : M unit := modify (set_udpSendMutex false).

(** [void udpSendBlocked(uint8_t packet_type, uint8_t data, uint32_t size)].
    [sendto_result] is what [FreeRTOS_sendto] returns for this packet: the
    number of bytes sent, [0] when the write failed.  The source drops it. *)
Definition udpSendBlocked (packet_type : Z) (data : udp_data) (size : Z)
    (sendto_result : Z) : M unit :=
  let '(packet, packet_size) := makePacket data size in
  xMutexAcquire ;;
  emit (Sent packet_type data packet packet_size sendto_result) ;;
  xMutexRelease.

(** A transport write failed. *)
Definition sendto_failed (sendto_result : Z) : bool := sendto_result =? 0.

(** What the caller of a step has afterwards: the returned value and the
    memory of the program. *)
Definition caller_view {A : Type} (r : A * Memory * list event) : A * Memory :=
  fst r.

(* ------------------------------------------------------------------ *)
(** *** commandsProcessTask *)

(** What the outside does during one command cycle: the results of the
    transport writes, and for each attempt what the Ingress Router puts
    into [replyAckQueue] while the task waits. *)
Record cycle_env := mk_cycle_env {
  sendto_reqack : Z;
  sendto_response : Z -> Z;
  reply_ack : Z -> arrival ackData_t
}.

(** Lines 147-151: store the command, make and send REQ_ACK. *)
Definition send_req_ack (commandData : commandData_t) (e : cycle_env) : M unit :=
  emit (CommandStored commandData) ;;
  let reqAckData := mk_ackData (cmd_packet_id commandData) in
  udpSendBlocked PACKET_TYPE_REQ_ACK (DataAck reqAckData) sizeof_ackData_t
    (sendto_reqack e).

(** Lines 154-169: make the response. *)
Definition make_response (commandData : commandData_t) : M unit :=
  modify (fun m =>
    let r := responseData m in
    set_responseData
      (mk_responseData (cmd_packet_id commandData) (rsp_response_status r)
         (cmd_reg_address commandData) (rsp_reg_value r)) m) ;;
  if cmd_command_type commandData =? COMMAND_TYPE_READ_REGISTER then
    modify (fun m =>
      let r := responseData m in
      let '(status, value, regs) :=
        reg_read (registers m) (cmd_reg_address commandData) (rsp_reg_value r) in
      set_registers regs
        (set_responseData
           (mk_responseData (rsp_packet_id r) status (rsp_reg_address r) value) m))
  else if cmd_command_type commandData =? COMMAND_TYPE_WRITE_REGISTER then
    modify (fun m =>
      let r := responseData m in
      set_responseData
        (mk_responseData (rsp_packet_id r) (rsp_response_status r)
           (rsp_reg_address r) (cmd_reg_value commandData)) m) ;;
    modify (fun m =>
      let r := responseData m in
      let '(status, regs) :=
        reg_write (registers m) (cmd_reg_address commandData)
          (cmd_reg_value commandData) in
      set_registers regs
        (set_responseData
           (mk_responseData (rsp_packet_id r) status (rsp_reg_address r)
              (rsp_reg_value r)) m))
  else
    modify (fun m =>
      let r := responseData m in
      set_responseData
        (mk_responseData (rsp_packet_id r) RESPONSE_FAULT (rsp_reg_address r)
           (rsp_reg_value r)) m).

(** [xQueueReceive(replyAckQueue, &replyAckData, ticks)] *)
Definition receive_replyAck (xTicksToWait : Z) (env : arrival ackData_t)
  : M (option ackData_t) :=
  fun m =>
    let '(got, q) := xQueueReceive (replyAckQueue m) xTicksToWait env in
    (got, set_replyAckQueue q m, []).

(** [xQueueReceive(commandDataQueue, &commandData, ticks)] *)
Definition receive_command (xTicksToWait : Z) (env : arrival commandData_t)
  : M (option commandData_t) :=
  fun m =>
    let '(got, q) := xQueueReceive (commandDataQueue m) xTicksToWait env in
    (got, set_commandDataQueue q m, []).

(** Lines 174-185: the loop
    [for(attempt = 0; attempt < SEND_RESPONSE_ATTEMPTS; attempt++)],
    entered with the given value of [attempt].  The result is the value of
    [attempt] when the loop is left; [None] when [fuel] iterations did not
    reach the end of the loop. *)
Fixpoint retry_loop (fuel : nat) (commandData : commandData_t) (e : cycle_env)
    (attempt : Z) : M (option Z) :=
  if attempt <? SEND_RESPONSE_ATTEMPTS then
    match fuel with
    | O => ret None
    | S fuel' =>
        r <- get responseData ;;
        emit (ResponseStored r) ;;
        udpSendBlocked PACKET_TYPE_RESPONSE (DataResponse r)
          sizeof_responseData_t (sendto_response e attempt) ;;
        got <- receive_replyAck (pdMS_TO_TICKS TIMEOUT_RECEIVE_REPLY_ACK_MS)
                 (reply_ack e attempt) ;;
        match got with
        | Some replyAckData =>
            if ack_packet_id replyAckData =? cmd_packet_id commandData
            then ret (Some attempt)                       (* break *)
            else retry_loop fuel' commandData e (attempt + 1)
        | None => retry_loop fuel' commandData e (attempt + 1)
        end
    end
  else ret (Some attempt).

(** Lines 147-172: everything of a command cycle before the loop. *)
Definition cycle_before_loop (commandData : commandData_t) (e : cycle_env)
  : M unit :=
  send_req_ack commandData e ;;
  make_response commandData ;;
  modify (fun m => set_replyAckQueue (xQueueReset (replyAckQueue m)) m).

(** Lines 147-191: the body run for a command taken from the queue. *)
Definition command_cycle (commandData : commandData_t) (e : cycle_env)
  : M unit :=
  cycle_before_loop commandData e ;;
  left_at <- retry_loop (Z.to_nat SEND_RESPONSE_ATTEMPTS) commandData e 0 ;;
  match left_at with
  | Some attempt =>
      if attempt =? SEND_RESPONSE_ATTEMPTS
      then emit NoReplyAckSignal   (* the branch is empty: mark only *)
      else ret tt
  | None => ret tt
  end.

(** One iteration of the [while(1)] of [commandsProcessTask]. *)
Definition commandsProcessTask_iteration (cmd_env : arrival commandData_t)
    (e : cycle_env) : M unit :=
  got <- receive_command TIMEOUT_RECEIVE_COMMAND_MS cmd_env ;;
  match got with
  | Some commandData => command_cycle commandData e
  | None => ret tt
  end.

(** [commandsProcessTask]: the iterations of its [while(1)] for as long as
    the outside is described. *)
Fixpoint commandsProcessTask (envs : list (arrival commandData_t * cycle_env))
  : M unit :=
  match envs with
  | [] => ret tt
  | (cmd_env, e) :: rest =>
      commandsProcessTask_iteration cmd_env e ;; commandsProcessTask rest
  end.

(* ------------------------------------------------------------------ *)
(** *** updInputDataParseTask *)

(** What the outside does during one iteration of the router: the
    datagram that [FreeRTOS_recvfrom] delivers ([None] when it returns
    false), and what the consumer of the target queue does while the
    router waits for room. *)
Record router_env := mk_router_env {
  datagram : option (list Z);
  room : vacancy
}.

Definition send_command (commandData : commandData_t) (xTicksToWait : Z)
    (env : vacancy) : M Z :=
  fun m =>
    let '(res, q) := xQueueSend (commandDataQueue m) commandData xTicksToWait env in
    (res, set_commandDataQueue q m, []).

Definition send_replyAck (replyAckData : ackData_t) (xTicksToWait : Z)
    (env : vacancy) : M Z :=
  fun m =>
    let '(res, q) := xQueueSend (replyAckQueue m) replyAckData xTicksToWait env in
    (res, set_replyAckQueue q m, []).

(** Lines 100-101: the two queues are created. *)
Definition create_queues : M unit :=
  modify (set_commandDataQueue (xQueueCreate 10)) ;;
  modify (set_replyAckQueue (xQueueCreate 1)).

(** One iteration of the [while(1)] of [updInputDataParseTask]. *)
Definition updInputDataParseTask_iteration (e : router_env) : M unit :=
  match datagram e with
  | Some bytes =>
      match getPacketFromUdp bytes with
      | Some packet =>
          if nth 0 packet 0 =? PACKET_TYPE_COMMAND then
            let commandData := packetToCommandData packet in
            res <- send_command commandData
                     (pdMS_TO_TICKS TIMEOUT_SEND_COMMAND_MS) (room e) ;;
            if negb (res =? pdPASS)
            then emit QueueSendFailSignal     (* mark only; continue *)
            else ret tt
          else if nth 0 packet 0 =? PACKET_TYPE_REPLY_ACK then
            let replyAckData := packetToReplyAck packet in
            res <- send_replyAck replyAckData
                     (pdMS_TO_TICKS TIMEOUT_SEND_REPLY_ACK_MS) (room e) ;;
            if negb (res =? pdPASS)
            then emit QueueSendFailSignal     (* mark only; continue *)
            else ret tt
          else ret tt
      | None => ret tt
      end
  | None => ret tt
  end.

Fixpoint router_loop (envs : list router_env) : M unit :=
  match envs with
  | [] => ret tt
  | e :: rest => updInputDataParseTask_iteration e ;; router_loop rest
  end.

(** [updInputDataParseTask]: the creation of the queues, then the
    iterations of its [while(1)] for as long as the outside is described. *)
Definition updInputDataParseTask (envs : list router_env) : M unit :=
  create_queues ;; router_loop envs.

(* ------------------------------------------------------------------ *)
(** ** Running the steps *)

Lemma bind_run {A B : Type} (c : M A) (k : A -> M B) (m m1 : Memory)
    (x : A) (t1 : list event) :
  c m = (x, m1, t1) ->
  bind c k m = (result_of (k x m1), memory_of (k x m1), t1 ++ trace_of (k x m1)).
Proof.
  intros H. unfold bind. rewrite H.
  now destruct (k x m1) as [[y m2] t2].
Qed.

Lemma set_replyAckQueue_same (m : Memory) :
  set_replyAckQueue (replyAckQueue m) m = m.
Proof. now destruct m. Qed.

Lemma set_commandDataQueue_same (m : Memory) :
  set_commandDataQueue (commandDataQueue m) m = m.
Proof. now destruct m. Qed.

Lemma udpSendBlocked_run (packet_type : Z) (data : udp_data) (size res : Z)
    (m : Memory) :
  udpSendBlocked packet_type data size res m
  = (tt, set_udpSendMutex false m,
     [Sent packet_type data (fst (makePacket data size))
        (snd (makePacket data size)) res]).
Proof.
  unfold udpSendBlocked. now destruct (makePacket data size).
Qed.

(** The response and the registers that [make_response] leaves in memory. *)
Definition executed (commandData : commandData_t) (m : Memory)
  : responseData_t * Regs :=
  let m' := memory_of (make_response commandData m) in
  (responseData m', registers m').

Lemma make_response_run (commandData : commandData_t) (m : Memory) :
  make_response commandData m
  = (tt,
     set_registers (snd (executed commandData m))
       (set_responseData (fst (executed commandData m)) m),
     []).
Proof.
  unfold executed, make_response, bind, modify, memory_of.
  destruct (cmd_command_type commandData =? COMMAND_TYPE_READ_REGISTER).
  - cbn. now destruct (reg_read _ _ _) as [[status value] regs].
  - destruct (cmd_command_type commandData =? COMMAND_TYPE_WRITE_REGISTER).
    + cbn. now destruct (reg_write _ _ _) as [status regs].
    + cbn. now destruct m.
Qed.

Lemma executed_packet_id (commandData : commandData_t) (m : Memory) :
  rsp_packet_id (fst (executed commandData m)) = cmd_packet_id commandData.
Proof.
  unfold executed, make_response, bind, modify, memory_of.
  destruct (cmd_command_type commandData =? COMMAND_TYPE_READ_REGISTER).
  - cbn. now destruct (reg_read _ _ _) as [[status value] regs].
  - destruct (cmd_command_type commandData =? COMMAND_TYPE_WRITE_REGISTER).
    + cbn. now destruct (reg_write _ _ _) as [status regs].
    + reflexivity.
Qed.

Lemma executed_reg_address (commandData : commandData_t) (m : Memory) :
  rsp_reg_address (fst (executed commandData m)) = cmd_reg_address commandData.
Proof.
  unfold executed, make_response, bind, modify, memory_of.
  destruct (cmd_command_type commandData =? COMMAND_TYPE_READ_REGISTER).
  - cbn. now destruct (reg_read _ _ _) as [[status value] regs].
  - destruct (cmd_command_type commandData =? COMMAND_TYPE_WRITE_REGISTER).
    + cbn. now destruct (reg_write _ _ _) as [status regs].
    + reflexivity.
Qed.

(** [make_response] reads the registers and the old [responseData] only. *)
Lemma executed_frame (commandData : commandData_t) (m m' : Memory) :
  registers m' = registers m ->
  responseData m' = responseData m ->
  executed commandData m' = executed commandData m.
Proof.
  intros Hregs Hresp.
  unfold executed, make_response, bind, modify, memory_of.
  destruct (cmd_command_type commandData =? COMMAND_TYPE_READ_REGISTER).
  - cbn. rewrite Hregs, Hresp.
    now destruct (reg_read _ _ _) as [[status value] regs].
  - destruct (cmd_command_type commandData =? COMMAND_TYPE_WRITE_REGISTER).
    + cbn. rewrite Hregs.
      now destruct (reg_write _ _ _) as [status regs].
    + cbn. now rewrite Hregs, Hresp.
Qed.

(** The events of lines 147-151. *)
Definition req_ack_events (commandData : commandData_t) (e : cycle_env)
  : list event :=
  let data := DataAck (mk_ackData (cmd_packet_id commandData)) in
  [CommandStored commandData;
   Sent PACKET_TYPE_REQ_ACK data
     (fst (makePacket data sizeof_ackData_t))
     (snd (makePacket data sizeof_ackData_t)) (sendto_reqack e)].

(** The memory in which the loop is entered. *)
Definition loop_entry (commandData : commandData_t) (m : Memory) : Memory :=
  let m1 := set_udpSendMutex false m in
  let m2 := set_registers (snd (executed commandData m))
              (set_responseData (fst (executed commandData m)) m1) in
  set_replyAckQueue (xQueueReset (replyAckQueue m)) m2.

Lemma cycle_before_loop_run (commandData : commandData_t) (e : cycle_env)
    (m : Memory) :
  cycle_before_loop commandData e m
  = (tt, loop_entry commandData m, req_ack_events commandData e).
Proof.
  unfold cycle_before_loop, send_req_ack.
  erewrite bind_run.
  2:{ unfold bind, emit. rewrite udpSendBlocked_run. reflexivity. }
  erewrite bind_run by apply make_response_run.
  unfold result_of, memory_of, trace_of, modify, loop_entry. cbn [fst snd app].
  rewrite (executed_frame commandData m (set_udpSendMutex false m)) by reflexivity.
  reflexivity.
Qed.

(* ------------------------------------------------------------------ *)
(** ** The retry loop *)

(** The wait of the given attempt ends with a REPLY_ACK of the command:
    the router enqueues one before the timeout and it carries the
    [packet_id] of the command. *)
Definition acked (commandData : commandData_t) (e : cycle_env) (attempt : Z)
  : bool :=
  match reply_ack e attempt with
  | ArrivesAt tick a =>
      (tick <? pdMS_TO_TICKS TIMEOUT_RECEIVE_REPLY_ACK_MS)
      && (ack_packet_id a =? cmd_packet_id commandData)
  | NoArrival => false
  end.

(** The events of one attempt: lines 176 and 178. *)
Definition attempt_events (r : responseData_t) (e : cycle_env) (attempt : Z)
  : list event :=
  [ResponseStored r;
   Sent PACKET_TYPE_RESPONSE (DataResponse r)
     (fst (makePacket (DataResponse r) sizeof_responseData_t))
     (snd (makePacket (DataResponse r) sizeof_responseData_t))
     (sendto_response e attempt)].

(** Value of [attempt] when the loop is left, with [n] attempts to go. *)
Fixpoint loop_exit (n : nat) (commandData : commandData_t) (e : cycle_env)
    (attempt : Z) : Z :=
  match n with
  | O => attempt
  | S n' =>
      if acked commandData e attempt then attempt
      else loop_exit n' commandData e (attempt + 1)
  end.

(** Events of the loop, with [n] attempts to go. *)
Fixpoint loop_events (n : nat) (r : responseData_t)
    (commandData : commandData_t) (e : cycle_env) (attempt : Z) : list event :=
  match n with
  | O => []
  | S n' =>
      attempt_events r e attempt
      ++ (if acked commandData e attempt then []
          else loop_events n' r commandData e (attempt + 1))
  end.

(** On an empty queue [xQueueReceive] yields what arrives in time. *)
Lemma receive_replyAck_empty (ticks : Z) (env : arrival ackData_t) (m : Memory) :
  q_items (replyAckQueue m) = [] ->
  receive_replyAck ticks env m
  = (match env with
     | ArrivesAt tick a => if tick <? ticks then Some a else None
     | NoArrival => None
     end, m, []).
Proof.
  intros Hempty. unfold receive_replyAck, xQueueReceive. rewrite Hempty.
  destruct env as [tick a|].
  - destruct (tick <? ticks); now rewrite set_replyAckQueue_same.
  - now rewrite set_replyAckQueue_same.
Qed.

Lemma retry_loop_done (fuel : nat) (commandData : commandData_t)
    (e : cycle_env) (attempt : Z) (m : Memory) :
  SEND_RESPONSE_ATTEMPTS <= attempt ->
  retry_loop fuel commandData e attempt m = (Some attempt, m, []).
Proof.
  intros H. destruct fuel; cbn [retry_loop];
    destruct (Z.ltb_spec attempt SEND_RESPONSE_ATTEMPTS); try lia; reflexivity.
Qed.

(** One turn of the loop from a memory with an empty [replyAckQueue]. *)
Lemma retry_loop_turn (fuel : nat) (commandData : commandData_t)
    (e : cycle_env) (attempt : Z) (m : Memory) :
  attempt < SEND_RESPONSE_ATTEMPTS ->
  q_items (replyAckQueue m) = [] ->
  retry_loop (S fuel) commandData e attempt m
  = if acked commandData e attempt
    then (Some attempt, set_udpSendMutex false m,
          attempt_events (responseData m) e attempt)
    else
      let next := retry_loop fuel commandData e (attempt + 1)
                    (set_udpSendMutex false m) in
      (result_of next, memory_of next,
       attempt_events (responseData m) e attempt ++ trace_of next).
Proof.
  intros Hlt Hempty. cbn [retry_loop].
  destruct (Z.ltb_spec attempt SEND_RESPONSE_ATTEMPTS) as [_|]; [|lia].
  erewrite bind_run by reflexivity.
  erewrite bind_run by reflexivity.
  erewrite bind_run by apply udpSendBlocked_run.
  erewrite bind_run by (apply receive_replyAck_empty; exact Hempty).
  unfold acked, result_of, memory_of, trace_of. cbn [fst snd app].
  destruct (reply_ack e attempt) as [tick a|].
  - destruct (tick <? pdMS_TO_TICKS TIMEOUT_RECEIVE_REPLY_ACK_MS); cbn [andb].
    + destruct (ack_packet_id a =? cmd_packet_id commandData); reflexivity.
    + reflexivity.
  - reflexivity.
Qed.

Lemma retry_loop_run (commandData : commandData_t) (e : cycle_env) :
  forall (fuel : nat) (attempt : Z) (m : Memory),
    q_items (replyAckQueue m) = [] ->
    (Z.to_nat (SEND_RESPONSE_ATTEMPTS - attempt) <= fuel)%nat ->
    retry_loop fuel commandData e attempt m
    = (Some (loop_exit (Z.to_nat (SEND_RESPONSE_ATTEMPTS - attempt))
               commandData e attempt),
       if attempt <? SEND_RESPONSE_ATTEMPTS then set_udpSendMutex false m else m,
       loop_events (Z.to_nat (SEND_RESPONSE_ATTEMPTS - attempt))
         (responseData m) commandData e attempt).
Proof.
  induction fuel as [|fuel IH]; intros attempt m Hempty Hfuel.
  - assert (Hge : SEND_RESPONSE_ATTEMPTS <= attempt) by lia.
    rewrite retry_loop_done by exact Hge.
    destruct (Z.ltb_spec attempt SEND_RESPONSE_ATTEMPTS); [lia|].
    replace (Z.to_nat (SEND_RESPONSE_ATTEMPTS - attempt)) with O by lia.
    reflexivity.
  - destruct (Z.ltb_spec attempt SEND_RESPONSE_ATTEMPTS) as [Hlt|Hge].
    + rewrite retry_loop_turn by assumption.
      replace (Z.to_nat (SEND_RESPONSE_ATTEMPTS - attempt))
        with (S (Z.to_nat (SEND_RESPONSE_ATTEMPTS - (attempt + 1)))) by lia.
      cbn [loop_exit loop_events].
      destruct (acked commandData e attempt).
      * reflexivity.
      * rewrite IH by first [exact Hempty | lia].
        unfold result_of, memory_of, trace_of. cbn [fst snd].
        destruct (attempt + 1 <? SEND_RESPONSE_ATTEMPTS); reflexivity.
    + rewrite retry_loop_done by exact Hge.
      replace (Z.to_nat (SEND_RESPONSE_ATTEMPTS - attempt)) with O by lia.
      reflexivity.
Qed.

(** The events of a whole command cycle. *)
Definition cycle_events (commandData : commandData_t) (e : cycle_env)
    (m : Memory) : list event :=
  let n := Z.to_nat SEND_RESPONSE_ATTEMPTS in
  req_ack_events commandData e
  ++ loop_events n (fst (executed commandData m)) commandData e 0
  ++ (if loop_exit n commandData e 0 =? SEND_RESPONSE_ATTEMPTS
      then [NoReplyAckSignal] else []).

Lemma command_cycle_run (commandData : commandData_t) (e : cycle_env)
    (m : Memory) :
  command_cycle commandData e m
  = (tt, loop_entry commandData m, cycle_events commandData e m).
Proof.
  unfold command_cycle.
  erewrite bind_run by apply cycle_before_loop_run.
  erewrite bind_run.
  2:{ apply retry_loop_run; [reflexivity | cbn; lia]. }
  unfold cycle_events, result_of, memory_of, trace_of.
  change (SEND_RESPONSE_ATTEMPTS - 0) with SEND_RESPONSE_ATTEMPTS.
  change (0 <? SEND_RESPONSE_ATTEMPTS) with true. cbv iota.
  change (responseData (loop_entry commandData m))
    with (fst (executed commandData m)).
  destruct (loop_exit _ commandData e 0 =? SEND_RESPONSE_ATTEMPTS);
    reflexivity.
Qed.

(* ------------------------------------------------------------------ *)
(** ** The command cycle *)

Lemma iteration_accepted (cmd_env : arrival commandData_t) (e : cycle_env)
    (m : Memory) (commandData : commandData_t) :
  result_of (receive_command TIMEOUT_RECEIVE_COMMAND_MS cmd_env m)
  = Some commandData ->
  commandsProcessTask_iteration cmd_env e m
  = command_cycle commandData e
      (memory_of (receive_command TIMEOUT_RECEIVE_COMMAND_MS cmd_env m)).
Proof.
  intros Hgot. unfold commandsProcessTask_iteration.
  destruct (receive_command _ cmd_env m) as [[got m1] t1] eqn:Hrecv.
  assert (t1 = []) as ->.
  { unfold receive_command in Hrecv.
    destruct (xQueueReceive _ _ _); now inversion Hrecv. }
  cbn in Hgot. subst got.
  erewrite bind_run by exact Hrecv.
  unfold result_of, memory_of, trace_of. cbn [fst snd app].
  now destruct (command_cycle commandData e m1) as [[u m2] t2].
Qed.

Lemma acked_in_time (commandData : commandData_t) (e : cycle_env)
    (attempt tick : Z) (a : ackData_t) :
  reply_ack e attempt = ArrivesAt tick a ->
  tick < pdMS_TO_TICKS TIMEOUT_RECEIVE_REPLY_ACK_MS ->
  acked commandData e attempt
  = (ack_packet_id a =? cmd_packet_id commandData).
Proof.
  intros Henv Htick. unfold acked. rewrite Henv.
  destruct (Z.ltb_spec tick (pdMS_TO_TICKS TIMEOUT_RECEIVE_REPLY_ACK_MS)); [|lia].
  reflexivity.
Qed.

Lemma loop_exit_cases (commandData : commandData_t) (e : cycle_env) :
  loop_exit (Z.to_nat SEND_RESPONSE_ATTEMPTS) commandData e 0
  = if acked commandData e 0 then 0
    else if acked commandData e 1 then 1
    else if acked commandData e 2 then 2
    else 3.
Proof. reflexivity. Qed.

Lemma cycle_events_cases (commandData : commandData_t) (e : cycle_env)
    (m : Memory) :
  let r := fst (executed commandData m) in
  cycle_events commandData e m
  = req_ack_events commandData e
    ++ attempt_events r e 0
    ++ (if acked commandData e 0 then []
        else attempt_events r e 1
          ++ (if acked commandData e 1 then []
              else attempt_events r e 2
                ++ (if acked commandData e 2 then []
                    else [NoReplyAckSignal]))).
Proof.
  intros r. unfold cycle_events. rewrite loop_exit_cases.
  change (Z.to_nat SEND_RESPONSE_ATTEMPTS) with 3%nat.
  cbn [loop_events].
  change (0 + 1 + 1) with 2. change (0 + 1) with 1. fold r.
  destruct (acked commandData e 0); [reflexivity|].
  destruct (acked commandData e 1); [reflexivity|].
  destruct (acked commandData e 2); reflexivity.
Qed.

(** The three attempts, one by one. *)
Ltac by_attempts commandData e :=
  destruct (acked commandData e 0) eqn:?;
  [| destruct (acked commandData e 1) eqn:?;
     [| destruct (acked commandData e 2) eqn:? ] ].

Ltac attempt_cases attempt :=
  assert (attempt = 0 \/ attempt = 1 \/ attempt = 2) as [-> | [-> | ->]]
    by (unfold SEND_RESPONSE_ATTEMPTS in *; lia).

Ltac earlier_unacked H :=
  try (rewrite (H 0) in * by (unfold SEND_RESPONSE_ATTEMPTS; lia));
  try (rewrite (H 1) in * by (unfold SEND_RESPONSE_ATTEMPTS; lia));
  try (rewrite (H 2) in * by (unfold SEND_RESPONSE_ATTEMPTS; lia)).

(** C1: for a command taken from [commandDataQueue], the iteration sends
    exactly one REQ_ACK frame and between one and three Response frames,
    and every Response frame carries one and the same [responseData],
    which has the [packet_id] and the [reg_address] of the command. *)
Theorem accepted_command_frames (cmd_env : arrival commandData_t)
    (e : cycle_env) (m : Memory) (commandData : commandData_t) :
  result_of (receive_command TIMEOUT_RECEIVE_COMMAND_MS cmd_env m)
  = Some commandData ->
  let tr := trace_of (commandsProcessTask_iteration cmd_env e m) in
  count_sent PACKET_TYPE_REQ_ACK tr = 1%nat
  /\ (1 <= count_sent PACKET_TYPE_RESPONSE tr <= 3)%nat
  /\ exists r : responseData_t,
       rsp_packet_id r = cmd_packet_id commandData
       /\ rsp_reg_address r = cmd_reg_address commandData
       /\ forall data packet packet_size res,
            In (Sent PACKET_TYPE_RESPONSE data packet packet_size res) tr ->
            data = DataResponse r
            /\ (packet, packet_size) = makePacket (DataResponse r) sizeof_responseData_t.
Proof.
  intros Hgot tr. subst tr.
  rewrite (iteration_accepted _ _ _ _ Hgot), command_cycle_run.
  set (m1 := memory_of _).
  unfold trace_of. cbn [snd]. rewrite cycle_events_cases.
  split; [|split].
  - by_attempts commandData e; reflexivity.
  - by_attempts commandData e; cbn; lia.
  - exists (fst (executed commandData m1)).
    split; [apply executed_packet_id|].
    split; [apply executed_reg_address|].
    intros data packet packet_size res Hin.
    assert (Hev : forall k,
      Sent PACKET_TYPE_RESPONSE data packet packet_size res
      = Sent PACKET_TYPE_RESPONSE (DataResponse (fst (executed commandData m1)))
          (fst (makePacket (DataResponse (fst (executed commandData m1)))
                  sizeof_responseData_t))
          (snd (makePacket (DataResponse (fst (executed commandData m1)))
                  sizeof_responseData_t)) k ->
      data = DataResponse (fst (executed commandData m1))
      /\ (packet, packet_size)
         = makePacket (DataResponse (fst (executed commandData m1)))
             sizeof_responseData_t).
    { intros k Hk. injection Hk as -> -> -> _.
      split; [reflexivity | now destruct (makePacket _ _)]. }
    by_attempts commandData e; cbn in Hin;
      repeat (destruct Hin as [Hin|Hin]; try discriminate Hin;
              try (symmetry in Hin; now apply Hev in Hin));
      contradiction.
Qed.

Lemma retry_loop_result (commandData : commandData_t) (e : cycle_env)
    (m : Memory) :
  result_of (retry_loop (Z.to_nat SEND_RESPONSE_ATTEMPTS) commandData e 0
               (loop_entry commandData m))
  = Some (if acked commandData e 0 then 0
          else if acked commandData e 1 then 1
          else if acked commandData e 2 then 2
          else 3).
Proof.
  rewrite retry_loop_run by (try reflexivity; cbn; lia).
  unfold result_of. cbn [fst].
  change (SEND_RESPONSE_ATTEMPTS - 0) with SEND_RESPONSE_ATTEMPTS.
  now rewrite loop_exit_cases.
Qed.

(** C2: when the wait of an attempt of a command cycle dequeues, before
    the 100 ms timeout, a REPLY_ACK whose [packet_id] is the one of the
    command, the cycle sends no Response frame after that attempt and
    signals no failure; the loop is left at that attempt, with as many
    Response frames sent as attempts were made. *)
Theorem matching_reply_ack_ends_cycle (commandData : commandData_t)
    (e : cycle_env) (m : Memory) (attempt tick : Z) (a : ackData_t) :
  0 <= attempt < SEND_RESPONSE_ATTEMPTS ->
  reply_ack e attempt = ArrivesAt tick a ->
  tick < pdMS_TO_TICKS TIMEOUT_RECEIVE_REPLY_ACK_MS ->
  ack_packet_id a = cmd_packet_id commandData ->
  let tr := trace_of (command_cycle commandData e m) in
  (count_sent PACKET_TYPE_RESPONSE tr <= Z.to_nat (attempt + 1))%nat
  /\ ~ In NoReplyAckSignal tr
  /\ ((forall earlier, 0 <= earlier < attempt ->
         acked commandData e earlier = false) ->
      count_sent PACKET_TYPE_RESPONSE tr = Z.to_nat (attempt + 1)
      /\ result_of (retry_loop (Z.to_nat SEND_RESPONSE_ATTEMPTS) commandData e 0
                      (loop_entry commandData m)) = Some attempt
      /\ exists before,
           tr = before ++ attempt_events (fst (executed commandData m)) e attempt).
Proof.
  intros Hattempt Henv Htick Hid tr. subst tr.
  assert (Hacked : acked commandData e attempt = true).
  { rewrite (acked_in_time _ _ _ _ _ Henv Htick). now apply Z.eqb_eq. }
  rewrite command_cycle_run, retry_loop_result.
  unfold trace_of. cbn [snd]. rewrite cycle_events_cases.
  set (r := fst (executed commandData m)).
  attempt_cases attempt; split; [ | split | | split | | split ].
  all: try (by_attempts commandData e; cbn; try lia; congruence).
  all: try (by_attempts commandData e; cbn; intuition discriminate).
  all: intros Hearlier; earlier_unacked Hearlier; rewrite Hacked.
  all: split; [reflexivity | split; [reflexivity|] ].
  - now exists (req_ack_events commandData e).
  - exists (req_ack_events commandData e ++ attempt_events r e 0).
    now rewrite <- app_assoc.
  - exists (req_ack_events commandData e ++ attempt_events r e 0
            ++ attempt_events r e 1).
    now rewrite <- !app_assoc.
Qed.

(** No REPLY_ACK that reaches the task during the cycle carries the
    [packet_id] of the command. *)
Definition no_matching_reply_ack (commandData : commandData_t) (e : cycle_env)
  : Prop :=
  forall attempt tick a,
    reply_ack e attempt = ArrivesAt tick a ->
    ack_packet_id a <> cmd_packet_id commandData.

Lemma no_matching_reply_ack_unacked (commandData : commandData_t)
    (e : cycle_env) (attempt : Z) :
  no_matching_reply_ack commandData e -> acked commandData e attempt = false.
Proof.
  intros Hno. unfold acked.
  destruct (reply_ack e attempt) as [tick a|] eqn:Henv; [|reflexivity].
  apply Hno in Henv. apply Z.eqb_neq in Henv. rewrite Henv.
  apply andb_false_r.
Qed.

(** The control flow of an unacknowledged cycle: when no REPLY_ACK with
    the [packet_id] of the command arrives during a command cycle, the
    cycle sends exactly three Response frames and then takes the branch
    [attempt == SEND_RESPONSE_ATTEMPTS], whose mark is its last event; the
    branch is taken if and only if none of the three attempts is
    acknowledged; and the task goes on with its next iteration from the
    memory the cycle leaves. *)
Theorem unacknowledged_cycle_fails (commandData : commandData_t)
    (e : cycle_env) (m : Memory) :
  let tr := trace_of (command_cycle commandData e m) in
  let r := fst (executed commandData m) in
  (no_matching_reply_ack commandData e ->
     tr = req_ack_events commandData e
          ++ attempt_events r e 0 ++ attempt_events r e 1
          ++ attempt_events r e 2 ++ [NoReplyAckSignal]
     /\ count_sent PACKET_TYPE_RESPONSE tr = 3%nat)
  /\ (In NoReplyAckSignal tr <->
      forall attempt, 0 <= attempt < SEND_RESPONSE_ATTEMPTS ->
        acked commandData e attempt = false)
  /\ (forall cmd_env rest,
        result_of (receive_command TIMEOUT_RECEIVE_COMMAND_MS cmd_env m)
        = Some commandData ->
        let m0 := memory_of (receive_command TIMEOUT_RECEIVE_COMMAND_MS cmd_env m) in
        let cycle := command_cycle commandData e m0 in
        let next := commandsProcessTask rest (memory_of cycle) in
        commandsProcessTask ((cmd_env, e) :: rest) m
        = (tt, memory_of next, trace_of cycle ++ trace_of next)).
Proof.
  intros tr r. subst tr.
  rewrite command_cycle_run. unfold trace_of. cbn [snd].
  rewrite cycle_events_cases. fold r.
  split; [|split].
  - intros Hno.
    rewrite !(no_matching_reply_ack_unacked _ _ _ Hno).
    split; reflexivity.
  - split.
    + intros Hin attempt Hattempt.
      attempt_cases attempt;
        by_attempts commandData e; try reflexivity; exfalso;
        cbn in Hin; intuition discriminate.
    + intros Hall. earlier_unacked Hall.
      cbv iota. rewrite !in_app_iff. do 4 right. now left.
  - intros cmd_env rest Hgot.
    cbn [commandsProcessTask].
    erewrite bind_run by (rewrite (iteration_accepted _ _ _ _ Hgot);
                          apply command_cycle_run).
    rewrite command_cycle_run.
    unfold result_of, memory_of, trace_of. cbn [fst snd].
    now destruct (fst (fst (commandsProcessTask rest _))).
Qed.

(** C4: when the wait of an attempt dequeues a REPLY_ACK whose
    [packet_id] differs from the one of the command, the loop is not left
    at that attempt: the next attempt sends its Response frame, or, after
    the third attempt, the failure is signalled. *)
Theorem mismatched_reply_ack_consumes_attempt (commandData : commandData_t)
    (e : cycle_env) (m : Memory) (attempt tick : Z) (a : ackData_t) :
  0 <= attempt < SEND_RESPONSE_ATTEMPTS ->
  (forall earlier, 0 <= earlier < attempt ->
     acked commandData e earlier = false) ->
  reply_ack e attempt = ArrivesAt tick a ->
  tick < pdMS_TO_TICKS TIMEOUT_RECEIVE_REPLY_ACK_MS ->
  ack_packet_id a <> cmd_packet_id commandData ->
  let tr := trace_of (command_cycle commandData e m) in
  result_of (retry_loop (Z.to_nat SEND_RESPONSE_ATTEMPTS) commandData e 0
               (loop_entry commandData m)) <> Some attempt
  /\ (attempt + 1 < SEND_RESPONSE_ATTEMPTS ->
      (Z.to_nat (attempt + 2) <= count_sent PACKET_TYPE_RESPONSE tr)%nat)
  /\ (attempt + 1 = SEND_RESPONSE_ATTEMPTS ->
      count_sent PACKET_TYPE_RESPONSE tr = 3%nat
      /\ exists before, tr = before ++ [NoReplyAckSignal]).
Proof.
  intros Hattempt Hearlier Henv Htick Hid tr. subst tr.
  assert (Hacked : acked commandData e attempt = false).
  { rewrite (acked_in_time _ _ _ _ _ Henv Htick). now apply Z.eqb_neq. }
  rewrite command_cycle_run, retry_loop_result.
  unfold trace_of. cbn [snd]. rewrite cycle_events_cases.
  set (r := fst (executed commandData m)).
  unfold SEND_RESPONSE_ATTEMPTS.
  attempt_cases attempt; earlier_unacked Hearlier; rewrite ?Hacked.
  - split; [|split]; try lia.
    + by_attempts commandData e; discriminate.
    + intros _. by_attempts commandData e; cbn; lia.
  - split; [|split]; try lia.
    + destruct (acked commandData e 2); discriminate.
    + intros _. destruct (acked commandData e 2); cbn; lia.
  - split; [|split]; try lia.
    + discriminate.
    + intros _. split; [reflexivity|].
      exists (req_ack_events commandData e ++ attempt_events r e 0
              ++ attempt_events r e 1 ++ attempt_events r e 2).
      now rewrite <- !app_assoc.
Qed.

(* ------------------------------------------------------------------ *)
(** ** The response *)

Lemma cycle_events_response (commandData : commandData_t) (e : cycle_env)
    (m : Memory) (data : udp_data) (packet : list Z) (packet_size res : Z) :
  In (Sent PACKET_TYPE_RESPONSE data packet packet_size res)
     (cycle_events commandData e m) ->
  data = DataResponse (fst (executed commandData m)).
Proof.
  rewrite cycle_events_cases. intros Hin.
  by_attempts commandData e; cbn in Hin;
    repeat (destruct Hin as [Hin|Hin]; try discriminate Hin;
            try (now injection Hin as <- _ _ _));
    contradiction.
Qed.

(** C5: the response made for a command has the [packet_id] and the
    [reg_address] of the command; for command type 0 its status and value
    are what [reg_read] of the address yields; for command type 1 its
    status is what [reg_write] of the command's value to the address
    yields and its value is the command's value; for any other command
    type its status is [RESPONSE_FAULT].  It is the response that the
    Response frames of the cycle carry. *)
Theorem make_response_cases (commandData : commandData_t) (m : Memory) :
  let m' := memory_of (make_response commandData m) in
  let r := responseData m' in
  let old := rsp_reg_value (responseData m) in
  rsp_packet_id r = cmd_packet_id commandData
  /\ rsp_reg_address r = cmd_reg_address commandData
  /\ (cmd_command_type commandData = COMMAND_TYPE_READ_REGISTER ->
      (rsp_response_status r, rsp_reg_value r, registers m')
      = reg_read (registers m) (cmd_reg_address commandData) old)
  /\ (cmd_command_type commandData = COMMAND_TYPE_WRITE_REGISTER ->
      (rsp_response_status r, registers m')
      = reg_write (registers m) (cmd_reg_address commandData)
          (cmd_reg_value commandData)
      /\ rsp_reg_value r = cmd_reg_value commandData)
  /\ (cmd_command_type commandData <> COMMAND_TYPE_READ_REGISTER ->
      cmd_command_type commandData <> COMMAND_TYPE_WRITE_REGISTER ->
      rsp_response_status r = RESPONSE_FAULT
      /\ rsp_reg_value r = old /\ registers m' = registers m)
  /\ (forall e data packet packet_size res,
        In (Sent PACKET_TYPE_RESPONSE data packet packet_size res)
           (trace_of (command_cycle commandData e m)) ->
        data = DataResponse r).
Proof.
  intros m' r old.
  split; [apply (executed_packet_id commandData m)|].
  split; [apply (executed_reg_address commandData m)|].
  split; [|split; [|split]].
  - intros Hty. subst m' r old.
    unfold make_response, bind, modify, memory_of. rewrite Hty.
    cbn. now destruct (reg_read _ _ _) as [[status value] regs].
  - intros Hty. subst m' r old.
    unfold make_response, bind, modify, memory_of. rewrite Hty.
    cbn. now destruct (reg_write _ _ _) as [status regs].
  - intros Hread Hwrite. subst m' r old.
    unfold make_response, bind, modify, memory_of.
    apply Z.eqb_neq in Hread, Hwrite. rewrite Hread, Hwrite.
    cbn. auto.
  - intros e data packet packet_size res.
    rewrite command_cycle_run. apply cycle_events_response.
Qed.

(* ------------------------------------------------------------------ *)
(** ** Stale entries of replyAckQueue *)

(** The same memory with other entries pending in [replyAckQueue]. *)
Definition with_pending_replyAcks (pending : list ackData_t) (m : Memory)
  : Memory :=
  set_replyAckQueue (mkQueue (uxQueueLength (replyAckQueue m)) pending) m.

Lemma loop_entry_pending (commandData : commandData_t)
    (pending : list ackData_t) (m : Memory) :
  loop_entry commandData (with_pending_replyAcks pending m)
  = loop_entry commandData m.
Proof.
  unfold loop_entry.
  now rewrite (executed_frame commandData m (with_pending_replyAcks pending m)).
Qed.

(** Were the queue not reset, the loop would take an entry that is
    pending when it starts. *)
Lemma retry_loop_takes_pending (commandData : commandData_t) (e : cycle_env)
    (m : Memory) (a : ackData_t) (rest : list ackData_t) :
  q_items (replyAckQueue m) = a :: rest ->
  ack_packet_id a = cmd_packet_id commandData ->
  result_of (retry_loop (Z.to_nat SEND_RESPONSE_ATTEMPTS) commandData e 0 m)
  = Some 0.
Proof.
  intros Hpending Hid.
  change (Z.to_nat SEND_RESPONSE_ATTEMPTS) with 3%nat. cbn [retry_loop].
  change (0 <? SEND_RESPONSE_ATTEMPTS) with true. cbv iota.
  erewrite bind_run by reflexivity.
  erewrite bind_run by reflexivity.
  erewrite bind_run by apply udpSendBlocked_run.
  erewrite bind_run.
  2:{ unfold receive_replyAck, xQueueReceive. cbn. rewrite Hpending. reflexivity. }
  unfold result_of. cbn [fst].
  apply Z.eqb_eq in Hid. now rewrite Hid.
Qed.

Lemma no_arrival_unacked (commandData : commandData_t) (e : cycle_env)
    (attempt : Z) :
  reply_ack e attempt = NoArrival -> acked commandData e attempt = false.
Proof. intros H. unfold acked. now rewrite H. Qed.

(** C6: the loop of a command cycle is entered with an empty
    [replyAckQueue]; the cycle does not depend on the entries that were
    pending in the queue when it started; and when nothing is enqueued
    during the cycle the failure is signalled whatever was pending, an
    entry with the [packet_id] of the command included. *)
Theorem stale_reply_acks_discarded (commandData : commandData_t)
    (e : cycle_env) (m : Memory) (pending : list ackData_t) :
  q_items (replyAckQueue (memory_of (cycle_before_loop commandData e m))) = []
  /\ command_cycle commandData e (with_pending_replyAcks pending m)
     = command_cycle commandData e m
  /\ ((forall attempt, reply_ack e attempt = NoArrival) ->
      In NoReplyAckSignal
        (trace_of (command_cycle commandData e
                     (with_pending_replyAcks pending m)))).
Proof.
  assert (Hsame : command_cycle commandData e (with_pending_replyAcks pending m)
                  = command_cycle commandData e m).
  { rewrite !command_cycle_run, loop_entry_pending.
    unfold cycle_events.
    now rewrite (executed_frame commandData m (with_pending_replyAcks pending m)). }
  split; [|split].
  - now rewrite cycle_before_loop_run.
  - exact Hsame.
  - intros Hnone. rewrite Hsame, command_cycle_run.
    unfold trace_of. cbn [snd]. rewrite cycle_events_cases.
    rewrite !no_arrival_unacked by apply Hnone.
    cbv iota. rewrite !in_app_iff. do 4 right. now left.
Qed.

(* ------------------------------------------------------------------ *)
(** ** The sender *)

(** C8, as the source has it: [udpSendBlocked] returns nothing and drops
    the result of [FreeRTOS_sendto], so what the caller has after the call
    is the same whether the transport write failed or succeeded; the
    packet is handed to the transport once and the mutex is released in
    both cases. *)
Theorem udpSendBlocked_drops_result (packet_type : Z) (data : udp_data)
    (size res res' : Z) (m : Memory) :
  caller_view (udpSendBlocked packet_type data size res m)
  = caller_view (udpSendBlocked packet_type data size res' m)
  /\ udpSendMutex (memory_of (udpSendBlocked packet_type data size res m))
     = false
  /\ trace_of (udpSendBlocked packet_type data size res m)
     = [Sent packet_type data (fst (makePacket data size))
          (snd (makePacket data size)) res].
Proof.
  rewrite !udpSendBlocked_run. repeat split.
Qed.

(* ------------------------------------------------------------------ *)
(** ** The router *)

(** The queue is full and stays full until the wait of [xTicksToWait]
    ticks is over. *)
Definition full_past_timeout {A : Type} (q : Queue A) (xTicksToWait : Z)
    (env : vacancy) : Prop :=
  (uxQueueLength q <= length (q_items q))%nat
  /\ match env with
     | FreedAt tick => xTicksToWait <= tick
     | NeverFreed => True
     end.

Lemma xQueueSend_full_past_timeout {A : Type} (q : Queue A) (item : A)
    (ticks : Z) (env : vacancy) :
  full_past_timeout q ticks env ->
  xQueueSend q item ticks env = (errQUEUE_FULL, q).
Proof.
  intros [Hfull Henv]. unfold xQueueSend.
  destruct (Nat.ltb_spec (length (q_items q)) (uxQueueLength q)); [lia|].
  destruct env as [tick|]; [|reflexivity].
  destruct (Z.ltb_spec tick ticks); [lia | reflexivity].
Qed.

Lemma xQueueSend_enqueued {A : Type} (q : Queue A) (item : A)
    (ticks : Z) (env : vacancy) :
  ~ full_past_timeout q ticks env ->
  exists older,
    xQueueSend q item ticks env
    = (pdPASS, mkQueue (uxQueueLength q) (older ++ [item])).
Proof.
  intros Hnot. unfold xQueueSend, full_past_timeout in *.
  destruct (Nat.ltb_spec (length (q_items q)) (uxQueueLength q)).
  - now exists (q_items q).
  - destruct env as [tick|].
    + destruct (Z.ltb_spec tick ticks).
      * now exists (tl (q_items q)).
      * exfalso. apply Hnot. split; assumption.
    + exfalso. apply Hnot. split; [assumption | exact I].
Qed.

(** The queues are the ones of lines 100-101 and hold no more than their
    capacity. *)
Definition queues_bounded (m : Memory) : Prop :=
  uxQueueLength (commandDataQueue m) = 10%nat
  /\ uxQueueLength (replyAckQueue m) = 1%nat
  /\ (length (q_items (commandDataQueue m)) <= 10)%nat
  /\ (length (q_items (replyAckQueue m)) <= 1)%nat.

Lemma xQueueSend_bounded {A : Type} (q : Queue A) (item : A) (ticks : Z)
    (env : vacancy) :
  (0 < uxQueueLength q)%nat ->
  (length (q_items q) <= uxQueueLength q)%nat ->
  uxQueueLength (snd (xQueueSend q item ticks env)) = uxQueueLength q
  /\ (length (q_items (snd (xQueueSend q item ticks env))) <= uxQueueLength q)%nat.
Proof.
  intros Hpos Hlen. unfold xQueueSend.
  destruct (Nat.ltb_spec (length (q_items q)) (uxQueueLength q)).
  - cbn. rewrite length_app. cbn. lia.
  - destruct env as [tick|]; [|now cbn].
    destruct (tick <? ticks); [|now cbn].
    cbn. rewrite length_app. cbn.
    destruct (q_items q); cbn in *; lia.
Qed.

Lemma iteration_bounded (e : router_env) (m : Memory) :
  queues_bounded m ->
  queues_bounded (memory_of (updInputDataParseTask_iteration e m)).
Proof.
  intros (Hc & Hr & Hlc & Hlr). unfold updInputDataParseTask_iteration.
  destruct (datagram e) as [bytes|]; [|now repeat apply conj].
  destruct (getPacketFromUdp bytes) as [packet|]; [|now repeat apply conj].
  destruct (nth 0 packet 0 =? PACKET_TYPE_COMMAND).
  - unfold bind, send_command.
    destruct (xQueueSend_bounded (commandDataQueue m)
                (packetToCommandData packet)
                (pdMS_TO_TICKS TIMEOUT_SEND_COMMAND_MS) (room e))
      as [Hcap Hlen]; [lia | lia |].
    destruct (xQueueSend (commandDataQueue m) _ _ _) as [res q].
    cbn in Hcap, Hlen.
    destruct (negb (res =? pdPASS));
      unfold queues_bounded, memory_of, set_commandDataQueue, set_replyAckQueue;
      cbn; repeat apply conj; lia.
  - destruct (nth 0 packet 0 =? PACKET_TYPE_REPLY_ACK); [|now repeat apply conj].
    unfold bind, send_replyAck.
    destruct (xQueueSend_bounded (replyAckQueue m)
                (packetToReplyAck packet)
                (pdMS_TO_TICKS TIMEOUT_SEND_REPLY_ACK_MS) (room e))
      as [Hcap Hlen]; [lia | lia |].
    destruct (xQueueSend (replyAckQueue m) _ _ _) as [res q].
    cbn in Hcap, Hlen.
    destruct (negb (res =? pdPASS));
      unfold queues_bounded, memory_of, set_commandDataQueue, set_replyAckQueue;
      cbn; repeat apply conj; lia.
Qed.

Lemma router_loop_bounded (envs : list router_env) :
  forall m, queues_bounded m ->
            queues_bounded (memory_of (router_loop envs m)).
Proof.
  induction envs as [|e rest IH]; intros m Hm.
  - exact Hm.
  - cbn [router_loop]. unfold bind.
    pose proof (iteration_bounded e m Hm) as H1.
    destruct (updInputDataParseTask_iteration e m) as [[u m1] t1].
    specialize (IH m1 H1).
    destruct (router_loop rest m1) as [[u2 m2] t2].
    exact IH.
Qed.

Lemma router_loop_cons (e : router_env) (rest : list router_env) (m : Memory) :
  let it := updInputDataParseTask_iteration e m in
  let after := router_loop rest (memory_of it) in
  router_loop (e :: rest) m
  = (tt, memory_of after, trace_of it ++ trace_of after).
Proof.
  cbn [router_loop]. unfold bind, memory_of, trace_of.
  destruct (updInputDataParseTask_iteration e m) as [[u m1] t1].
  cbn [fst snd].
  now destruct (router_loop rest m1) as [[[] m2] t2].
Qed.

(** The routing of one iteration: for a datagram that holds a valid
    packet, the router sends the structure of a Command packet to
    [commandDataQueue] and the structure of a REPLY_ACK packet to
    [replyAckQueue], waiting for room for the ticks of 1000 ms: the
    structure becomes the newest entry of its queue, unless the queue is
    full until the wait is over, in which case the memory is unchanged
    and the branch of the failed send is taken; a packet of any other
    type changes nothing.  The queues have capacity 10 and 1 and never
    hold more, and after each iteration the router runs the next one. *)
Theorem router_routes (e : router_env) (m : Memory) (bytes packet : list Z) :
  datagram e = Some bytes ->
  getPacketFromUdp bytes = Some packet ->
  let run := updInputDataParseTask_iteration e m in
  let ticks := pdMS_TO_TICKS 1000 in
  (nth 0 packet 0 = PACKET_TYPE_COMMAND ->
     (full_past_timeout (commandDataQueue m) ticks (room e) ->
        run = (tt, m, [QueueSendFailSignal]))
     /\ (~ full_past_timeout (commandDataQueue m) ticks (room e) ->
         exists older,
           run = (tt,
                  set_commandDataQueue
                    (mkQueue (uxQueueLength (commandDataQueue m))
                       (older ++ [packetToCommandData packet])) m,
                  [])))
  /\ (nth 0 packet 0 = PACKET_TYPE_REPLY_ACK ->
     (full_past_timeout (replyAckQueue m) ticks (room e) ->
        run = (tt, m, [QueueSendFailSignal]))
     /\ (~ full_past_timeout (replyAckQueue m) ticks (room e) ->
         exists older,
           run = (tt,
                  set_replyAckQueue
                    (mkQueue (uxQueueLength (replyAckQueue m))
                       (older ++ [packetToReplyAck packet])) m,
                  [])))
  /\ (nth 0 packet 0 <> PACKET_TYPE_COMMAND ->
      nth 0 packet 0 <> PACKET_TYPE_REPLY_ACK ->
      run = (tt, m, []))
  /\ (forall envs m0,
        queues_bounded (memory_of (updInputDataParseTask envs m0)))
  /\ (forall rest,
        router_loop (e :: rest) m
        = (tt, memory_of (router_loop rest (memory_of run)),
           trace_of run ++ trace_of (router_loop rest (memory_of run)))).
Proof.
  intros Hdatagram Hpacket run ticks.
  assert (Hrun : run = updInputDataParseTask_iteration e m) by reflexivity.
  unfold updInputDataParseTask_iteration in Hrun.
  rewrite Hdatagram, Hpacket in Hrun.
  split; [|split; [|split; [|split]]].
  - intros Hty. rewrite Hty in Hrun.
    change (PACKET_TYPE_COMMAND =? PACKET_TYPE_COMMAND) with true in Hrun.
    cbv iota in Hrun. unfold bind, send_command in Hrun.
    change (pdMS_TO_TICKS TIMEOUT_SEND_COMMAND_MS) with ticks in Hrun.
    split.
    + intros Hfull.
      rewrite (xQueueSend_full_past_timeout _ _ _ _ Hfull) in Hrun.
      cbn in Hrun. now rewrite set_commandDataQueue_same in Hrun.
    + intros Hroom.
      destruct (xQueueSend_enqueued (commandDataQueue m)
                  (packetToCommandData packet) ticks (room e) Hroom)
        as [older Hsend].
      exists older. rewrite Hsend in Hrun. exact Hrun.
  - intros Hty. rewrite Hty in Hrun.
    change (PACKET_TYPE_REPLY_ACK =? PACKET_TYPE_COMMAND) with false in Hrun.
    change (PACKET_TYPE_REPLY_ACK =? PACKET_TYPE_REPLY_ACK) with true in Hrun.
    cbv iota in Hrun. unfold bind, send_replyAck in Hrun.
    change (pdMS_TO_TICKS TIMEOUT_SEND_REPLY_ACK_MS) with ticks in Hrun.
    split.
    + intros Hfull.
      rewrite (xQueueSend_full_past_timeout _ _ _ _ Hfull) in Hrun.
      cbn in Hrun. now rewrite set_replyAckQueue_same in Hrun.
    + intros Hroom.
      destruct (xQueueSend_enqueued (replyAckQueue m)
                  (packetToReplyAck packet) ticks (room e) Hroom)
        as [older Hsend].
      exists older. rewrite Hsend in Hrun. exact Hrun.
  - intros Hcommand Hack.
    apply Z.eqb_neq in Hcommand, Hack. now rewrite Hcommand, Hack in Hrun.
  - intros envs m0. unfold updInputDataParseTask, bind.
    cbn [create_queues].
    pose proof (router_loop_bounded envs
                  (set_replyAckQueue (xQueueCreate 1)
                     (set_commandDataQueue (xQueueCreate 10) m0))) as Hb.
    unfold create_queues, bind, modify. cbn [fst snd app].
    destruct (router_loop envs _) as [[u m2] t2].
    apply Hb. repeat apply conj; cbn; lia.
  - intros rest. apply router_loop_cons.
Qed.

(* ------------------------------------------------------------------ *)
(** ** Further properties of the command cycle *)

Definition data_packet_id (data : udp_data) : Z :=
  match data with
  | DataAck a => ack_packet_id a
  | DataResponse r => rsp_packet_id r
  end.

(** An event that is a frame is a REQ_ACK or a Response frame and carries
    the given [packet_id]. *)
Definition echoes (packet_id : Z) (ev : event) : Prop :=
  match ev with
  | Sent packet_type data _ _ _ =>
      (packet_type = PACKET_TYPE_REQ_ACK \/ packet_type = PACKET_TYPE_RESPONSE)
      /\ data_packet_id data = packet_id
  | _ => True
  end.

(** What the events put into the two ring buffers, in order. *)
Definition history_of (tr : list event)
  : list (commandData_t + responseData_t) :=
  flat_map (fun ev =>
              match ev with
              | CommandStored c => [inl c]
              | ResponseStored r => [inr r]
              | _ => []
              end) tr.

(** The commands stored by the events, in order. *)
Definition stored_commands (tr : list event) : list commandData_t :=
  flat_map (fun ev => match ev with CommandStored c => [c] | _ => [] end) tr.

(** The [packet_id]s of the REQ_ACK frames of the events, in order. *)
Definition req_ack_ids (tr : list event) : list Z :=
  flat_map (fun ev =>
              match ev with
              | Sent packet_type data _ _ _ =>
                  if packet_type =? PACKET_TYPE_REQ_ACK
                  then [data_packet_id data] else []
              | _ => []
              end) tr.

(** An event without the result of its transport write. *)
Definition without_result (ev : event) : event :=
  match ev with
  | Sent packet_type data packet packet_size _ =>
      Sent packet_type data packet packet_size 0
  | _ => ev
  end.

(** X7: every frame that a command cycle sends is a REQ_ACK or a Response
    frame and carries the [packet_id] of the command: the task makes no
    [packet_id] of its own and sends no other kind of frame. *)
Theorem cycle_frames_echo_packet_id (commandData : commandData_t)
    (e : cycle_env) (m : Memory) :
  Forall (echoes (cmd_packet_id commandData))
    (trace_of (command_cycle commandData e m)).
Proof.
  rewrite command_cycle_run. unfold trace_of. cbn [snd].
  rewrite cycle_events_cases.
  pose proof (executed_packet_id commandData m) as Hid.
  by_attempts commandData e;
    repeat (apply Forall_cons || apply Forall_nil); cbn; auto.
Qed.

(** X8: the history of a command cycle is the command, once, followed by
    one copy of the response for each Response frame that was sent. *)
Theorem cycle_history (commandData : commandData_t) (e : cycle_env)
    (m : Memory) :
  let tr := trace_of (command_cycle commandData e m) in
  history_of tr
  = inl commandData
    :: repeat (inr (responseData (memory_of (make_response commandData m))))
         (count_sent PACKET_TYPE_RESPONSE tr).
Proof.
  intros tr. subst tr.
  rewrite command_cycle_run. unfold trace_of. cbn [snd].
  rewrite cycle_events_cases.
  change (responseData (memory_of (make_response commandData m)))
    with (fst (executed commandData m)).
  by_attempts commandData e; reflexivity.
Qed.

(** X9: a command is executed once per cycle, whatever the handshake
    does: after the cycle the registers and [responseData] are the ones
    that [make_response] leaves, [commandDataQueue] is untouched,
    [replyAckQueue] is empty and the mutex is released, for every course
    of the transport writes and of the REPLY_ACKs. *)
Theorem cycle_memory (commandData : commandData_t) (e : cycle_env)
    (m : Memory) :
  let m' := memory_of (command_cycle commandData e m) in
  registers m' = registers (memory_of (make_response commandData m))
  /\ responseData m' = responseData (memory_of (make_response commandData m))
  /\ commandDataQueue m' = commandDataQueue m
  /\ replyAckQueue m' = xQueueReset (replyAckQueue m)
  /\ udpSendMutex m' = false
  /\ forall e' : cycle_env, memory_of (command_cycle commandData e' m) = m'.
Proof.
  intros m'. subst m'. rewrite command_cycle_run.
  repeat apply conj; try reflexivity.
  intros e'. now rewrite command_cycle_run.
Qed.

Lemma acked_same_reply_ack (commandData : commandData_t) (e e' : cycle_env)
    (attempt : Z) :
  reply_ack e attempt = reply_ack e' attempt ->
  acked commandData e attempt = acked commandData e' attempt.
Proof. intros H. unfold acked. now rewrite H. Qed.

(** X10: the results of the transport writes have no influence on a
    command cycle: two cycles of the same command that meet the same
    REPLY_ACKs produce the same events, up to the results of the writes,
    even when every write of one of them fails. *)
Theorem cycle_ignores_transport (commandData : commandData_t)
    (e e' : cycle_env) (m : Memory) :
  (forall attempt, reply_ack e attempt = reply_ack e' attempt) ->
  map without_result (trace_of (command_cycle commandData e m))
  = map without_result (trace_of (command_cycle commandData e' m)).
Proof.
  intros Hsame. rewrite !command_cycle_run. unfold trace_of. cbn [snd].
  rewrite !cycle_events_cases.
  rewrite !(acked_same_reply_ack commandData e e') by apply Hsame.
  by_attempts commandData e'; reflexivity.
Qed.

(** X16: the retry loop always comes to its end within its three turns:
    it is left with [attempt] between 0 and 3, the number of Response
    frames sent is [attempt + 1] when it is left by [break] and 3 when it
    runs out, and the failure is signalled exactly when [attempt] is 3. *)
Theorem retry_loop_attempt (commandData : commandData_t) (e : cycle_env)
    (m : Memory) :
  let tr := trace_of (command_cycle commandData e m) in
  exists attempt,
    result_of (retry_loop (Z.to_nat SEND_RESPONSE_ATTEMPTS) commandData e 0
                 (memory_of (cycle_before_loop commandData e m)))
    = Some attempt
    /\ 0 <= attempt <= SEND_RESPONSE_ATTEMPTS
    /\ count_sent PACKET_TYPE_RESPONSE tr
       = Z.to_nat (Z.min (attempt + 1) SEND_RESPONSE_ATTEMPTS)
    /\ (In NoReplyAckSignal tr <-> attempt = SEND_RESPONSE_ATTEMPTS).
Proof.
  intros tr. subst tr.
  rewrite cycle_before_loop_run. unfold memory_of at 1. cbn [fst snd].
  rewrite retry_loop_result, command_cycle_run.
  unfold trace_of. cbn [snd]. rewrite cycle_events_cases.
  unfold SEND_RESPONSE_ATTEMPTS.
  by_attempts commandData e; eexists; (split; [reflexivity|]);
    (split; [lia|]); (split; [reflexivity|]);
    (split; [ intros H; cbn in H;
              repeat (destruct H as [H|H]; try discriminate H);
              try contradiction; reflexivity
            | intros H; try discriminate H;
              cbn; auto 10 ]).
Qed.

(* ------------------------------------------------------------------ *)
(** ** Commands in order *)

Lemma receive_command_pending (ticks : Z) (env : arrival commandData_t)
    (m : Memory) (c : commandData_t) (rest : list commandData_t) :
  q_items (commandDataQueue m) = c :: rest ->
  receive_command ticks env m
  = (Some c,
     set_commandDataQueue (mkQueue (uxQueueLength (commandDataQueue m)) rest) m,
     []).
Proof.
  intros Hq. unfold receive_command, xQueueReceive. now rewrite Hq.
Qed.

Lemma cycle_events_stored (commandData : commandData_t) (e : cycle_env)
    (m : Memory) :
  stored_commands (cycle_events commandData e m) = [commandData]
  /\ req_ack_ids (cycle_events commandData e m) = [cmd_packet_id commandData].
Proof.
  rewrite cycle_events_cases.
  by_attempts commandData e; split; reflexivity.
Qed.

Lemma stored_commands_app (t1 t2 : list event) :
  stored_commands (t1 ++ t2) = stored_commands t1 ++ stored_commands t2.
Proof. apply flat_map_app. Qed.

Lemma req_ack_ids_app (t1 t2 : list event) :
  req_ack_ids (t1 ++ t2) = req_ack_ids t1 ++ req_ack_ids t2.
Proof. apply flat_map_app. Qed.

(** The task takes the pending commands oldest first, one per iteration. *)
Lemma commandsProcessTask_pending (cs : list commandData_t) :
  forall (envs : list (arrival commandData_t * cycle_env)) (m : Memory),
    q_items (commandDataQueue m) = cs ->
    length envs = length cs ->
    let run := commandsProcessTask envs m in
    stored_commands (trace_of run) = cs
    /\ req_ack_ids (trace_of run) = map cmd_packet_id cs
    /\ q_items (commandDataQueue (memory_of run)) = [].
Proof.
  induction cs as [|c cs IH]; intros envs m Hq Hlen run; subst run.
  - destruct envs; [|discriminate]. cbn. now rewrite Hq.
  - destruct envs as [|[cmd_env e] envs]; [discriminate|].
    injection Hlen as Hlen.
    cbn [commandsProcessTask].
    pose proof (receive_command_pending TIMEOUT_RECEIVE_COMMAND_MS cmd_env m
                  c cs Hq) as Hrecv.
    set (m1 := set_commandDataQueue _ m) in Hrecv.
    assert (Hit : commandsProcessTask_iteration cmd_env e m
                  = (tt, loop_entry c m1, cycle_events c e m1)).
    { rewrite (iteration_accepted cmd_env e m c) by now rewrite Hrecv.
      rewrite Hrecv. apply command_cycle_run. }
    erewrite bind_run by exact Hit.
    specialize (IH envs (loop_entry c m1) eq_refl Hlen).
    destruct IH as (Hstored & Hids & Hempty).
    unfold trace_of, memory_of in *. cbn [fst snd].
    destruct (cycle_events_stored c e m1) as [Hc Hi].
    rewrite stored_commands_app, req_ack_ids_app, Hc, Hi, Hstored, Hids.
    repeat apply conj; try reflexivity. exact Hempty.
Qed.

(** X11: the commands pending in [commandDataQueue] are taken oldest
    first, one per iteration of the task: they are stored and
    acknowledged with their own [packet_id] in the order of the queue,
    commands with equal [packet_id] included, and the queue is empty
    afterwards. *)
Theorem pending_commands_in_order (cs : list commandData_t)
    (envs : list (arrival commandData_t * cycle_env)) (m : Memory) :
  q_items (commandDataQueue m) = cs ->
  length envs = length cs ->
  let run := commandsProcessTask envs m in
  stored_commands (trace_of run) = cs
  /\ req_ack_ids (trace_of run) = map cmd_packet_id cs
  /\ q_items (commandDataQueue (memory_of run)) = [].
Proof. apply commandsProcessTask_pending. Qed.

(* ------------------------------------------------------------------ *)
(** ** Further properties of the router *)

(** The packet that an iteration of the router works on, if any. *)
Definition routed_packet (e : router_env) : option (list Z) :=
  match datagram e with
  | Some bytes => getPacketFromUdp bytes
  | None => None
  end.

(** The command that a datagram holds, if it holds a valid Command
    packet. *)
Definition routed_command (bytes : list Z) : option commandData_t :=
  match getPacketFromUdp bytes with
  | Some packet =>
      if nth 0 packet 0 =? PACKET_TYPE_COMMAND
      then Some (packetToCommandData packet)
      else None
  | None => None
  end.

(** A datagram that comes in while nothing is taken from the queues. *)
Definition no_consumer (bytes : list Z) : router_env :=
  mk_router_env (Some bytes) NeverFreed.

(** X12: an iteration of the router touches the two queues only: it
    leaves the registers, [responseData] and the mutex as they are, sends
    no frame, signals at most once, and changes a queue only for a packet
    of the type of that queue. *)
Theorem router_iteration_frame (e : router_env) (m : Memory) :
  let run := updInputDataParseTask_iteration e m in
  let m' := memory_of run in
  registers m' = registers m
  /\ responseData m' = responseData m
  /\ udpSendMutex m' = udpSendMutex m
  /\ (trace_of run = [] \/ trace_of run = [QueueSendFailSignal])
  /\ (commandDataQueue m' = commandDataQueue m
      \/ exists packet, routed_packet e = Some packet
                        /\ nth 0 packet 0 = PACKET_TYPE_COMMAND)
  /\ (replyAckQueue m' = replyAckQueue m
      \/ exists packet, routed_packet e = Some packet
                        /\ nth 0 packet 0 = PACKET_TYPE_REPLY_ACK).
Proof.
  intros run m'. subst m' run.
  unfold updInputDataParseTask_iteration, routed_packet.
  destruct (datagram e) as [bytes|]; [|cbn; auto 7].
  destruct (getPacketFromUdp bytes) as [packet|]; [|cbn; auto 7].
  destruct (Z.eqb_spec (nth 0 packet 0) PACKET_TYPE_COMMAND) as [Hc|Hc].
  - unfold bind, send_command.
    destruct (xQueueSend (commandDataQueue m) _ _ _) as [res q].
    destruct (negb (res =? pdPASS)); cbn; repeat apply conj; eauto.
  - destruct (Z.eqb_spec (nth 0 packet 0) PACKET_TYPE_REPLY_ACK) as [Ha|Ha];
      [|cbn; auto 7].
    unfold bind, send_replyAck.
    destruct (xQueueSend (replyAckQueue m) _ _ _) as [res q].
    destruct (negb (res =? pdPASS)); cbn; repeat apply conj; eauto.
Qed.

(** X13: the router does nothing at all, and signals nothing, unless the
    receive succeeds and the datagram holds a valid packet of type
    Command or REPLY_ACK. *)
Theorem router_ignores_rest (e : router_env) (m : Memory) :
  updInputDataParseTask_iteration e m = (tt, m, [])
  \/ exists bytes packet,
       datagram e = Some bytes
       /\ getPacketFromUdp bytes = Some packet
       /\ (nth 0 packet 0 = PACKET_TYPE_COMMAND
           \/ nth 0 packet 0 = PACKET_TYPE_REPLY_ACK).
Proof.
  unfold updInputDataParseTask_iteration.
  destruct (datagram e) as [bytes|]; [|now left].
  destruct (getPacketFromUdp bytes) as [packet|] eqn:Hp; [|now left].
  destruct (Z.eqb_spec (nth 0 packet 0) PACKET_TYPE_COMMAND) as [Hc|Hc].
  - right. exists bytes, packet. auto.
  - destruct (Z.eqb_spec (nth 0 packet 0) PACKET_TYPE_REPLY_ACK) as [Ha|Ha].
    + right. exists bytes, packet. auto.
    + now left.
Qed.

Lemma routed_command_inv (bytes : list Z) (c : commandData_t) :
  routed_command bytes = Some c ->
  exists packet,
    getPacketFromUdp bytes = Some packet
    /\ (nth 0 packet 0 =? PACKET_TYPE_COMMAND) = true
    /\ c = packetToCommandData packet.
Proof.
  unfold routed_command. intros H.
  destruct (getPacketFromUdp bytes) as [packet|]; [|discriminate].
  destruct (nth 0 packet 0 =? PACKET_TYPE_COMMAND) eqn:Hty; [|discriminate].
  injection H as <-. now exists packet.
Qed.

(** Command datagrams that come in while nothing is taken from
    [commandDataQueue]: the queue fills up in order, the rest is
    dropped. *)
Lemma router_loop_no_consumer (datagrams : list (list Z)) :
  forall (cmds : list commandData_t) (m : Memory),
    map routed_command datagrams = map Some cmds ->
    uxQueueLength (commandDataQueue m) = 10%nat ->
    (length (q_items (commandDataQueue m)) <= 10)%nat ->
    let pending := q_items (commandDataQueue m) ++ cmds in
    router_loop (map no_consumer datagrams) m
    = (tt,
       set_commandDataQueue (mkQueue 10 (firstn 10 pending)) m,
       repeat QueueSendFailSignal (length pending - 10)).
Proof.
  induction datagrams as [|bytes datagrams IH];
    intros cmds m Hmap Hcap Hlen pending; subst pending.
  - destruct cmds; [|discriminate]. cbn [map router_loop].
    rewrite app_nil_r, firstn_all2 by exact Hlen.
    replace (length (q_items (commandDataQueue m)) - 10)%nat with O by lia.
    unfold ret. cbn [repeat]. f_equal. f_equal.
    rewrite <- Hcap. destruct m as [[cap items] ? ? ? ?]. reflexivity.
  - destruct cmds as [|c cmds]; [discriminate|].
    cbn [map] in Hmap. injection Hmap as Hc Hmap.
    apply routed_command_inv in Hc as (packet & Hpacket & Hty & ->).
    cbn [map router_loop].
    assert (Hit : updInputDataParseTask_iteration (no_consumer bytes) m
                  = if (length (q_items (commandDataQueue m)) <? 10)%nat
                    then (tt,
                          set_commandDataQueue
                            (mkQueue 10 (q_items (commandDataQueue m)
                                         ++ [packetToCommandData packet])) m,
                          [])
                    else (tt, m, [QueueSendFailSignal])).
    { unfold updInputDataParseTask_iteration, no_consumer. cbn [datagram room].
      rewrite Hpacket, Hty. unfold bind, send_command, xQueueSend.
      rewrite Hcap.
      destruct (length (q_items (commandDataQueue m)) <? 10)%nat; cbn.
      - reflexivity.
      - now rewrite set_commandDataQueue_same. }
    destruct (Nat.ltb_spec (length (q_items (commandDataQueue m))) 10)
      as [Hroom|Hfull].
    + erewrite bind_run by exact Hit.
      rewrite (IH cmds) by (cbn; rewrite ?length_app; cbn; try lia; exact Hmap).
      unfold result_of, memory_of, trace_of. cbn [fst snd app].
      cbn [commandDataQueue set_commandDataQueue q_items].
      rewrite <- app_assoc. reflexivity.
    + erewrite bind_run by exact Hit.
      rewrite (IH cmds) by assumption.
      unfold result_of, memory_of, trace_of. cbn [fst snd app].
      assert (Hten : length (q_items (commandDataQueue m)) = 10%nat) by lia.
      rewrite !firstn_app, Hten, Nat.sub_diag. cbn [firstn].
      rewrite !length_app, Hten. cbn [length].
      replace (10 + S (length cmds) - 10)%nat
        with (S (10 + length cmds - 10)) by lia.
      reflexivity.
Qed.

(** X14: Command datagrams that come in after the queues are created,
    while nothing is taken from [commandDataQueue], are enqueued in the
    order of their arrival; the first ten fill the queue and each further
    one is dropped: it does not enter the queue, and the memory is the one
    that the first ten datagrams alone leave. *)
Theorem router_fills_queue_in_order (datagrams : list (list Z))
    (cmds : list commandData_t) (m0 : Memory) :
  map routed_command datagrams = map Some cmds ->
  let run := updInputDataParseTask (map no_consumer datagrams) m0 in
  q_items (commandDataQueue (memory_of run)) = firstn 10 cmds
  /\ q_items (replyAckQueue (memory_of run)) = []
  /\ memory_of run
     = memory_of (updInputDataParseTask
                    (map no_consumer (firstn 10 datagrams)) m0).
Proof.
  intros Hmap run. subst run.
  assert (Hten : map routed_command (firstn 10 datagrams)
                 = map Some (firstn 10 cmds)).
  { now rewrite <- !firstn_map, Hmap. }
  unfold updInputDataParseTask.
  erewrite !bind_run by reflexivity.
  rewrite (router_loop_no_consumer datagrams cmds) by (try exact Hmap; cbn; lia).
  rewrite (router_loop_no_consumer (firstn 10 datagrams) (firstn 10 cmds))
    by (try exact Hten; cbn; lia).
  unfold result_of, memory_of, trace_of. cbn [fst snd].
  change (q_items (commandDataQueue
                     (set_replyAckQueue (xQueueCreate 1)
                        (set_commandDataQueue (xQueueCreate 10) m0))))
    with (@nil commandData_t).
  cbn [app]. rewrite firstn_firstn.
  repeat apply conj; reflexivity.
Qed.

(** X15: from datagram to answer: the commands of the datagrams that the
    router has enqueued are the ones that [commandsProcessTask] then
    stores and acknowledges, in the order in which their datagrams
    arrived. *)
Theorem datagrams_answered_in_order (datagrams : list (list Z))
    (cmds : list commandData_t) (m0 : Memory)
    (envs : list (arrival commandData_t * cycle_env)) :
  map routed_command datagrams = map Some cmds ->
  length envs = length (firstn 10 cmds) ->
  let routed := updInputDataParseTask (map no_consumer datagrams) m0 in
  let run := commandsProcessTask envs (memory_of routed) in
  stored_commands (trace_of run) = firstn 10 cmds
  /\ req_ack_ids (trace_of run) = map cmd_packet_id (firstn 10 cmds).
Proof.
  intros Hmap Hlen routed run. subst run routed.
  assert (Hq : q_items (commandDataQueue
                          (memory_of (updInputDataParseTask
                                        (map no_consumer datagrams) m0)))
               = firstn 10 cmds).
  { unfold updInputDataParseTask.
    erewrite bind_run by reflexivity.
    rewrite (router_loop_no_consumer datagrams cmds)
      by (try exact Hmap; cbn; lia).
    reflexivity. }
  destruct (commandsProcessTask_pending (firstn 10 cmds) envs _ Hq Hlen)
    as (Hstored & Hids & _).
  split; assumption.
Qed.

End Engine.

(* ------------------------------------------------------------------ *)
(** ** The lengths of the wire format *)

Lemma le_bytes_length (n : nat) (v : Z) : length (le_bytes n v) = n.
Proof.
  revert v; induction n as [|n IH]; intros v; cbn; [reflexivity|].
  now rewrite IH.
Qed.

Lemma u32_bytes_length (bo : byte_order) (v : Z) :
  length (u32_bytes bo v) = 4%nat.
Proof.
  destruct bo; unfold u32_bytes.
  - now rewrite length_rev, le_bytes_length.
  - apply le_bytes_length.
Qed.

(** Every encoding fits the packet buffer of [PACKET_MAX_SIZE] bytes. *)
Lemma encode_fits_packet (bo : byte_order) (f : frame) :
  Z.of_nat (length (encode bo f)) <= PACKET_MAX_SIZE.
Proof.
  destruct f; unfold encode, PACKET_MAX_SIZE;
    rewrite ?length_app, ?u32_bytes_length; cbn; lia.
Qed.

(** C9: the encoding of a Command or Response frame has exactly 14 bytes
    and the encoding of a RequestAck or ReplyAck frame exactly 5; the
    length depends on the kind of the frame only. *)
Theorem encode_length (bo : byte_order) (f : frame) :
  length (encode bo f) = frame_length (kind_of f)
  /\ length (encode bo f)
     = match f with
       | Command _ | Response _ => 14%nat
       | RequestAck _ | ReplyAck _ => 5%nat
       end
  /\ forall (bo' : byte_order) (g : frame),
       kind_of g = kind_of f -> length (encode bo' g) = length (encode bo f).
Proof.
  assert (Hlen : forall b h, length (encode b h) = frame_length (kind_of h)).
  { intros b h. destruct h; unfold encode;
      rewrite ?length_app, ?u32_bytes_length; reflexivity. }
  split; [apply Hlen|split].
  - rewrite Hlen. now destruct f.
  - intros bo' g Hkind. now rewrite !Hlen, Hkind.
Qed.

(* ------------------------------------------------------------------ *)
(** ** The scenarios of the protocol on a concrete device *)

Arguments mkMemory {Regs}.
Arguments commandDataQueue {Regs}.
Arguments replyAckQueue {Regs}.
Arguments udpSendMutex {Regs}.
Arguments registers {Regs}.
Arguments responseData {Regs}.
Arguments result_of {Regs A}.
Arguments memory_of {Regs A}.
Arguments trace_of {Regs A}.
Arguments caller_view {Regs A}.
Arguments with_pending_replyAcks {Regs}.
Arguments receive_command {Regs}.
Arguments make_response {Regs}.
Arguments udpSendBlocked {Regs}.

(** A device with a register file, one tick per millisecond, and
    [makePacket] given by the codec. *)
Definition device_tick_rate : Z := 1000.

Definition register_file : Type := Z -> Z.

Definition file_read (regs : register_file) (address old : Z)
  : Z * Z * register_file :=
  (RESPONSE_OK, regs address, regs).

Definition file_write (regs : register_file) (address value : Z)
  : Z * register_file :=
  (RESPONSE_OK, fun a => if a =? address then value else regs a).

Definition codec_makePacket (data : udp_data) (size : Z) : list Z * Z :=
  let packet :=
    encode BigEndian
      match data with
      | DataAck a => RequestAck a
      | DataResponse r => Response r
      end in
  (packet, Z.of_nat (length packet)).

(** A datagram holds a valid packet when it has the length of its kind. *)
Definition codec_getPacketFromUdp (bytes : list Z) : option (list Z) :=
  if (nth 0 bytes 0 =? PACKET_TYPE_COMMAND) && (length bytes =? 14)%nat
  then Some bytes
  else if (nth 0 bytes 0 =? PACKET_TYPE_REPLY_ACK) && (length bytes =? 5)%nat
  then Some bytes
  else if (nth 0 bytes 0 =? PACKET_TYPE_RESPONSE) && (length bytes =? 14)%nat
  then Some bytes
  else if (nth 0 bytes 0 =? PACKET_TYPE_REQ_ACK) && (length bytes =? 5)%nat
  then Some bytes
  else None.

Definition be_u32 (packet : list Z) (offset : nat) : Z :=
  ((nth offset packet 0 * 256 + nth (offset + 1) packet 0) * 256
   + nth (offset + 2) packet 0) * 256 + nth (offset + 3) packet 0.

Definition codec_packetToCommandData (packet : list Z) : commandData_t :=
  mk_commandData (be_u32 packet 1) (nth 5 packet 0) (be_u32 packet 6)
    (be_u32 packet 10).

Definition codec_packetToReplyAck (packet : list Z) : ackData_t :=
  mk_ackData (be_u32 packet 1).

(** Command 42 reads register 0x1000, which holds 0xABCD. *)
Definition scenario_command : commandData_t :=
  mk_commandData 42 COMMAND_TYPE_READ_REGISTER 4096 0.

Definition scenario_registers : register_file :=
  fun a => if a =? 4096 then 43981 else 0.

Definition scenario_memory : Memory register_file :=
  mkMemory (xQueueCreate 10) (xQueueCreate 1) false scenario_registers
    (mk_responseData 0 0 0 0).

(** Scenario A: REPLY_ACK 42 arrives 20 ms after the first Response. *)
Definition scenario_A : cycle_env :=
  mk_cycle_env 5 (fun _ => 14)
    (fun attempt => if attempt =? 0 then ArrivesAt 20 (mk_ackData 42)
                    else NoArrival).

(** Scenario B: no REPLY_ACK is ever sent. *)
Definition scenario_B : cycle_env :=
  mk_cycle_env 5 (fun _ => 14) (fun _ => NoArrival).

(** Scenario C: REPLY_ACK 41 arrives during the first attempt, REPLY_ACK
    42 during the second. *)
Definition scenario_C : cycle_env :=
  mk_cycle_env 5 (fun _ => 14)
    (fun attempt =>
       if attempt =? 0 then ArrivesAt 20 (mk_ackData 41)
       else if attempt =? 1 then ArrivesAt 30 (mk_ackData 42)
       else NoArrival).

(** Scenario D: [commandDataQueue] is held full while a Command datagram
    comes in. *)
Definition scenario_D_memory : Memory register_file :=
  mkMemory (mkQueue 10 (repeat scenario_command 10)) (xQueueCreate 1) false
    scenario_registers (mk_responseData 0 0 0 0).

Definition scenario_D : router_env :=
  mk_router_env (Some (encode BigEndian (Command scenario_command))) NeverFreed.

Definition device_cycle (commandData : commandData_t) (e : cycle_env)
  : M register_file unit :=
  command_cycle device_tick_rate register_file file_read file_write
    codec_makePacket commandData e.

Definition device_iteration (cmd_env : arrival commandData_t) (e : cycle_env)
  : M register_file unit :=
  commandsProcessTask_iteration device_tick_rate register_file file_read
    file_write codec_makePacket cmd_env e.

Definition device_router_iteration (e : router_env) : M register_file unit :=
  updInputDataParseTask_iteration device_tick_rate register_file
    codec_getPacketFromUdp codec_packetToCommandData codec_packetToReplyAck e.

Definition response_ABCD : responseData_t :=
  mk_responseData 42 RESPONSE_OK 4096 43981.

(** Scenario A: REQ_ACK 42 once, Response [42, Ok, 0x1000, 0xABCD] once,
    no failure. *)
Example scenario_A_events :
  trace_of (device_iteration (ArrivesAt 3 scenario_command) scenario_A
              scenario_memory)
  = [CommandStored scenario_command;
     Sent PACKET_TYPE_REQ_ACK (DataAck (mk_ackData 42)) [3; 0; 0; 0; 42] 5 5;
     ResponseStored response_ABCD;
     Sent PACKET_TYPE_RESPONSE (DataResponse response_ABCD)
       [2; 0; 0; 0; 42; 1; 0; 0; 16; 0; 0; 0; 171; 205] 14 14].
Proof. reflexivity. Qed.

(** Scenario B: three Responses, then the branch of the exhausted
    handshake. *)
Example scenario_B_events :
  trace_of (device_cycle scenario_command scenario_B scenario_memory)
  = [CommandStored scenario_command;
     Sent PACKET_TYPE_REQ_ACK (DataAck (mk_ackData 42)) [3; 0; 0; 0; 42] 5 5;
     ResponseStored response_ABCD;
     Sent PACKET_TYPE_RESPONSE (DataResponse response_ABCD)
       [2; 0; 0; 0; 42; 1; 0; 0; 16; 0; 0; 0; 171; 205] 14 14;
     ResponseStored response_ABCD;
     Sent PACKET_TYPE_RESPONSE (DataResponse response_ABCD)
       [2; 0; 0; 0; 42; 1; 0; 0; 16; 0; 0; 0; 171; 205] 14 14;
     ResponseStored response_ABCD;
     Sent PACKET_TYPE_RESPONSE (DataResponse response_ABCD)
       [2; 0; 0; 0; 42; 1; 0; 0; 16; 0; 0; 0; 171; 205] 14 14;
     NoReplyAckSignal].
Proof. reflexivity. Qed.

(** Scenario C: the first attempt does not count, the second does. *)
Example scenario_C_events :
  count_sent PACKET_TYPE_RESPONSE
    (trace_of (device_cycle scenario_command scenario_C scenario_memory))
  = 2%nat
  /\ ~ In NoReplyAckSignal
       (trace_of (device_cycle scenario_command scenario_C scenario_memory)).
Proof.
  split; [reflexivity|].
  intros H. vm_compute in H.
  repeat (destruct H as [H|H]; try discriminate H). exact H.
Qed.

(** Scenario D: the Command is dropped and the branch of the failed send
    is taken. *)
Example scenario_D_events :
  device_router_iteration scenario_D scenario_D_memory
  = (tt, scenario_D_memory, [QueueSendFailSignal]).
Proof. reflexivity. Qed.

(* ------------------------------------------------------------------ *)
(** ** The theorems on the scenarios *)

Lemma accepted_command_frames_scenario_A :
  result_of (receive_command TIMEOUT_RECEIVE_COMMAND_MS
               (ArrivesAt 3 scenario_command) scenario_memory)
  = Some scenario_command
  /\ count_sent PACKET_TYPE_REQ_ACK
       (trace_of (device_iteration (ArrivesAt 3 scenario_command) scenario_A
                    scenario_memory)) = 1%nat.
Proof.
  split; [reflexivity|].
  apply (accepted_command_frames device_tick_rate register_file file_read
           file_write codec_makePacket (ArrivesAt 3 scenario_command)
           scenario_A scenario_memory scenario_command).
  reflexivity.
Defined.

Lemma matching_reply_ack_ends_cycle_scenario_C :
  reply_ack scenario_C 1 = ArrivesAt 30 (mk_ackData 42)
  /\ (count_sent PACKET_TYPE_RESPONSE
        (trace_of (device_cycle scenario_command scenario_C scenario_memory))
      <= 2)%nat.
Proof.
  split; [reflexivity|].
  apply (matching_reply_ack_ends_cycle device_tick_rate register_file
           file_read file_write codec_makePacket scenario_command scenario_C
           scenario_memory 1 30 (mk_ackData 42)).
  - unfold SEND_RESPONSE_ATTEMPTS. lia.
  - reflexivity.
  - reflexivity.
  - reflexivity.
Defined.

Lemma unacknowledged_cycle_fails_scenario_B :
  no_matching_reply_ack scenario_command scenario_B
  /\ count_sent PACKET_TYPE_RESPONSE
       (trace_of (device_cycle scenario_command scenario_B scenario_memory))
     = 3%nat.
Proof.
  assert (Hno : no_matching_reply_ack scenario_command scenario_B).
  { intros attempt tick a H. discriminate H. }
  split; [exact Hno|].
  apply (proj1 (unacknowledged_cycle_fails device_tick_rate register_file
                  file_read file_write codec_makePacket scenario_command
                  scenario_B scenario_memory) Hno).
Defined.

Lemma mismatched_reply_ack_consumes_attempt_scenario_C :
  reply_ack scenario_C 0 = ArrivesAt 20 (mk_ackData 41)
  /\ (2 <= count_sent PACKET_TYPE_RESPONSE
            (trace_of (device_cycle scenario_command scenario_C
                         scenario_memory)))%nat.
Proof.
  split; [reflexivity|].
  refine (proj1 (proj2 (mismatched_reply_ack_consumes_attempt device_tick_rate
                   register_file file_read file_write codec_makePacket
                   scenario_command scenario_C scenario_memory 0 20
                   (mk_ackData 41) _ _ _ _ _)) _).
  - unfold SEND_RESPONSE_ATTEMPTS. lia.
  - intros earlier H. lia.
  - reflexivity.
  - reflexivity.
  - discriminate.
  - reflexivity.
Defined.

Lemma make_response_cases_scenario :
  let m' := memory_of (make_response file_read file_write scenario_command
                         scenario_memory) in
  cmd_command_type scenario_command = COMMAND_TYPE_READ_REGISTER
  /\ (rsp_response_status (responseData m'), rsp_reg_value (responseData m'),
      registers m')
     = file_read scenario_registers 4096 0.
Proof.
  split; [reflexivity|].
  apply (make_response_cases device_tick_rate register_file file_read
           file_write codec_makePacket scenario_command scenario_memory).
  reflexivity.
Defined.

Lemma stale_reply_acks_discarded_scenario_B :
  In NoReplyAckSignal
    (trace_of (device_cycle scenario_command scenario_B
                 (with_pending_replyAcks [mk_ackData 42] scenario_memory))).
Proof.
  apply (stale_reply_acks_discarded device_tick_rate register_file file_read
           file_write codec_makePacket scenario_command scenario_B
           scenario_memory [mk_ackData 42]).
  intros attempt. reflexivity.
Defined.

Lemma router_routes_scenario_D :
  full_past_timeout (commandDataQueue scenario_D_memory)
    (pdMS_TO_TICKS device_tick_rate 1000) (room scenario_D)
  /\ device_router_iteration scenario_D scenario_D_memory
     = (tt, scenario_D_memory, [QueueSendFailSignal]).
Proof.
  assert (Hfull : full_past_timeout (commandDataQueue scenario_D_memory)
                    (pdMS_TO_TICKS device_tick_rate 1000) (room scenario_D)).
  { split; [cbn; lia | exact I]. }
  split; [exact Hfull|].
  refine (proj1 (proj1 (router_routes device_tick_rate register_file
                   codec_getPacketFromUdp codec_packetToCommandData
                   codec_packetToReplyAck scenario_D scenario_D_memory
                   (encode BigEndian (Command scenario_command))
                   (encode BigEndian (Command scenario_command)) _ _) _) Hfull).
  - reflexivity.
  - reflexivity.
  - reflexivity.
Defined.

Lemma encode_length_acks :
  length (encode LittleEndian (ReplyAck (mk_ackData 42)))
  = length (encode BigEndian (ReplyAck (mk_ackData 7))).
Proof.
  apply (encode_length BigEndian (ReplyAck (mk_ackData 7))).
  reflexivity.
Defined.

(** C8, as stated, fails: nothing that the caller of [udpSendBlocked] has
    after the call tells a failed transport write (result [0]) from a
    successful one (result [14], the bytes sent). *)
Lemma udpSendBlocked_failure_not_reported :
  ~ exists report : unit * Memory register_file -> bool,
      forall res : Z,
        report (caller_view
                  (udpSendBlocked codec_makePacket PACKET_TYPE_RESPONSE
                     (DataResponse response_ABCD) sizeof_responseData_t res
                     scenario_memory))
        = sendto_failed res.
Proof.
  intros [report Hreport].
  pose proof (Hreport 0) as Hfailed.
  pose proof (Hreport 14) as Hsent.
  change (sendto_failed 0) with true in Hfailed.
  change (sendto_failed 14) with false in Hsent.
  rewrite udpSendBlocked_run in Hfailed, Hsent.
  unfold caller_view in Hfailed, Hsent. cbn [fst] in Hfailed, Hsent.
  congruence.
Qed.

(* ------------------------------------------------------------------ *)
(** ** The further properties on the scenarios *)

(** Scenario B with a transport that fails every write. *)
Definition scenario_B_transport_down : cycle_env :=
  mk_cycle_env 0 (fun _ => 0) (fun _ => NoArrival).

(** A second command: write 7 to register 0x2000. *)
Definition scenario_write : commandData_t :=
  mk_commandData 43 COMMAND_TYPE_WRITE_REGISTER 8192 7.

Definition scenario_two_pending : Memory register_file :=
  mkMemory (mkQueue 10 [scenario_command; scenario_write]) (xQueueCreate 1)
    false scenario_registers (mk_responseData 0 0 0 0).

Definition device_task (envs : list (arrival commandData_t * cycle_env))
  : M register_file unit :=
  commandsProcessTask device_tick_rate register_file file_read file_write
    codec_makePacket envs.

Definition device_router (envs : list router_env) : M register_file unit :=
  updInputDataParseTask device_tick_rate register_file codec_getPacketFromUdp
    codec_packetToCommandData codec_packetToReplyAck envs.

Definition device_routed_command : list Z -> option commandData_t :=
  routed_command codec_getPacketFromUdp codec_packetToCommandData.

Lemma cycle_ignores_transport_scenario_B :
  map without_result
    (trace_of (device_cycle scenario_command scenario_B scenario_memory))
  = map without_result
      (trace_of (device_cycle scenario_command scenario_B_transport_down
                   scenario_memory)).
Proof.
  apply (cycle_ignores_transport device_tick_rate register_file file_read
           file_write codec_makePacket scenario_command scenario_B
           scenario_B_transport_down scenario_memory).
  intros attempt. reflexivity.
Defined.

Lemma pending_commands_in_order_two :
  q_items (commandDataQueue scenario_two_pending)
  = [scenario_command; scenario_write]
  /\ req_ack_ids
       (trace_of (device_task [(NoArrival, scenario_A); (NoArrival, scenario_B)]
                    scenario_two_pending))
     = [42; 43].
Proof.
  split; [reflexivity|].
  exact (proj1 (proj2 (pending_commands_in_order device_tick_rate
                         register_file file_read file_write codec_makePacket
                         [scenario_command; scenario_write]
                         [(NoArrival, scenario_A); (NoArrival, scenario_B)]
                         scenario_two_pending eq_refl eq_refl))).
Defined.

Lemma router_fills_queue_in_order_eleven :
  map device_routed_command
    (repeat (encode BigEndian (Command scenario_command)) 11)
  = map Some (repeat scenario_command 11)
  /\ q_items (commandDataQueue
                (memory_of
                   (device_router
                      (map no_consumer
                         (repeat (encode BigEndian (Command scenario_command))
                            11))
                      scenario_memory)))
     = repeat scenario_command 10.
Proof.
  assert (H : map device_routed_command
                (repeat (encode BigEndian (Command scenario_command)) 11)
              = map Some (repeat scenario_command 11)) by reflexivity.
  split; [exact H|].
  exact (proj1 (router_fills_queue_in_order device_tick_rate
                  register_file codec_getPacketFromUdp
                  codec_packetToCommandData codec_packetToReplyAck
                  (repeat (encode BigEndian (Command scenario_command)) 11)
                  (repeat scenario_command 11) scenario_memory H)).
Defined.

Lemma datagrams_answered_in_order_two :
  map device_routed_command
    [encode BigEndian (Command scenario_command);
     encode BigEndian (Command scenario_write)]
  = map Some [scenario_command; scenario_write]
  /\ req_ack_ids
       (trace_of
          (device_task [(NoArrival, scenario_A); (NoArrival, scenario_B)]
             (memory_of
                (device_router
                   (map no_consumer
                      [encode BigEndian (Command scenario_command);
                       encode BigEndian (Command scenario_write)])
                   scenario_memory))))
     = [42; 43].
Proof.
  assert (H : map device_routed_command
                [encode BigEndian (Command scenario_command);
                 encode BigEndian (Command scenario_write)]
              = map Some [scenario_command; scenario_write]) by reflexivity.
  split; [exact H|].
  exact (proj2 (datagrams_answered_in_order device_tick_rate register_file
                  file_read file_write codec_makePacket codec_getPacketFromUdp
                  codec_packetToCommandData codec_packetToReplyAck
                  [encode BigEndian (Command scenario_command);
                   encode BigEndian (Command scenario_write)]
                  [scenario_command; scenario_write] scenario_memory
                  [(NoArrival, scenario_A); (NoArrival, scenario_B)]
                  H eq_refl)).
Defined.

(* ------------------------------------------------------------------ *)
(** ** The failures that the source does not signal *)

(** A Response datagram, which the router discards. *)
Definition scenario_D_response : router_env :=
  mk_router_env (Some (encode BigEndian (Response response_ABCD))) NeverFreed.

(** C3, on the code at scenario B (command 42, no REPLY_ACK ever sent):
    the cycle sends its three Response frames and takes the branch
    [attempt == SEND_RESPONSE_ATTEMPTS], but the program reports nothing:
    what it does ends with the third Response, and what its caller has
    afterwards is what it has after the acknowledged cycle of scenario
    A. *)
Theorem exhausted_handshake_reports_nothing :
  let failed := device_cycle scenario_command scenario_B scenario_memory in
  let succeeded := device_cycle scenario_command scenario_A scenario_memory in
  count_sent PACKET_TYPE_RESPONSE (trace_of failed) = 3%nat
  /\ In NoReplyAckSignal (trace_of failed)
  /\ performed (trace_of failed)
     = [CommandStored scenario_command;
        Sent PACKET_TYPE_REQ_ACK (DataAck (mk_ackData 42)) [3; 0; 0; 0; 42] 5 5;
        ResponseStored response_ABCD;
        Sent PACKET_TYPE_RESPONSE (DataResponse response_ABCD)
          [2; 0; 0; 0; 42; 1; 0; 0; 16; 0; 0; 0; 171; 205] 14 14;
        ResponseStored response_ABCD;
        Sent PACKET_TYPE_RESPONSE (DataResponse response_ABCD)
          [2; 0; 0; 0; 42; 1; 0; 0; 16; 0; 0; 0; 171; 205] 14 14;
        ResponseStored response_ABCD;
        Sent PACKET_TYPE_RESPONSE (DataResponse response_ABCD)
          [2; 0; 0; 0; 42; 1; 0; 0; 16; 0; 0; 0; 171; 205] 14 14]
  /\ caller_view failed = caller_view succeeded.
Proof.
  cbv zeta. split; [reflexivity|split; [|split]].
  - vm_compute. auto 10.
  - reflexivity.
  - reflexivity.
Qed.

(** C7, on the code at scenario D (a Command datagram while
    [commandDataQueue] stays full past the 1000 ms): the record is
    dropped, the branch of the failed send is taken and the router goes
    on, but the program signals nothing: it does nothing in the
    iteration, and what its caller has afterwards is what it has after a
    Response datagram was discarded. *)
Theorem dropped_command_signals_nothing :
  let dropped := device_router_iteration scenario_D scenario_D_memory in
  let discarded :=
    device_router_iteration scenario_D_response scenario_D_memory in
  full_past_timeout (commandDataQueue scenario_D_memory)
    (pdMS_TO_TICKS device_tick_rate 1000) (room scenario_D)
  /\ trace_of dropped = [QueueSendFailSignal]
  /\ performed (trace_of dropped) = []
  /\ memory_of dropped = scenario_D_memory
  /\ discarded = (tt, scenario_D_memory, [])
  /\ caller_view dropped = caller_view discarded.
Proof.
  cbv zeta. split; [|repeat apply conj; reflexivity].
  split; [cbn; lia | exact I].
Qed.

End Task2.
